(** * AIIP interoperability MVP: ledger, translator and gateway services

    A shallow embedding of the three FastAPI services of the repository

      - [src/backend/ledger/main.py]      (key custody, signing, the ledger),
      - [src/backend/translator/main.py]  (schema mappings, transform, telemetry),
      - [src/backend/gateway/main.py]     (node directory, message pipeline),

    followed by the properties their specification states about them.

    Conventions.  A module-level Python container is a field of the service's
    state record and every handler is a function from the state to the new
    state and a [Result]; a dictionary is a [gmap], a list a [list].  What a
    handler draws from its environment ([uuid.uuid4()], [time.time()],
    [Ed25519PrivateKey.generate()]) is handed to it; the gateway, which calls
    the two other services over HTTP, is a program over such requests.  The
    handlers of the ledger and of the translator contain no [await], so under
    asyncio each of them runs to completion before another starts: a run of
    the service is a sequence of handler calls.  Where the source puts the
    text of a caught exception into the detail of an [HTTPException], the
    detail here stops before that text. *)

From stdpp Require Import base option list gmap strings pretty.
From Stdlib Require Import ZArith.

Local Open Scope Z_scope.

(** ** Python values *)

(** [time.time()]: a clock reading; the services store readings and never
    compute with them. *)
Definition Time : Type := Z.

Abbreviation bytes := (list Byte.byte).

(** [str.encode()]: a [string] holds the UTF-8 text of a Python [str]. *)
Definition encode (s : string) : bytes := String.list_byte_of_string s.

(** Truth value of an [Optional[str]]: [None] and [""] are false. *)
Definition truthy (o : option string) : bool :=
  match o with
  | Some s => negb (bool_decide (s = ""))
  | None => false
  end.

(** What a handler gives back to FastAPI: a value (status 200) or a raised
    [HTTPException(status_code, detail)].  Status 500 stands for an exception
    that no handler catches. *)
Inductive Result (A : Type) : Type :=
  | Ok (a : A)
  | HTTPException (status_code : Z) (detail : string).
Arguments Ok {A} a.
Arguments HTTPException {A} status_code detail.

(** A JSON document as Python holds it after [json.loads]: [Any]. *)
Unset Elimination Schemes.
Inductive Json : Type :=
  | JNull
  | JBool (b : bool)
  | JNum (n : Z)
  | JStr (s : string)
  | JArr (l : list Json)
  | JObj (m : gmap string Json).
Set Elimination Schemes.

Definition json_opt (o : option string) : Json :=
  match o with Some s => JStr s | None => JNull end.

(** Truth value of a Python object obtained from JSON. *)
Definition py_truthy (j : Json) : bool :=
  match j with
  | JNull => false
  | JBool b => b
  | JNum n => negb (n =? 0)
  | JStr s => negb (bool_decide (s = ""))
  | JArr l => match l with [] => false | _ => true end
  | JObj m => negb (bool_decide (m = ∅))
  end.

(** [l[start:stop]] on a list, with Python's clamping of the two bounds. *)
Definition clamp (len i : Z) : Z :=
  if i <? 0 then Z.max (i + len) 0 else Z.min i len.

Definition py_slice {A} (l : list A) (start stop : Z) : list A :=
  let len := Z.of_nat (length l) in
  let a := clamp len start in
  let b := clamp len stop in
  take (Z.to_nat (b - a)) (drop (Z.to_nat a) l).

(** [l[-limit:]]. *)
Definition py_last {A} (l : list A) (limit : Z) : list A :=
  let len := Z.of_nat (length l) in
  drop (Z.to_nat (clamp len (- limit))) l.

(** ** The libraries the services call

    [base64], [cryptography]'s Ed25519 keys, [hashlib] and [json.dumps] are
    not code of the repository: the services are embedded over their
    interfaces.  A call that raises returns [None]. *)

Class Base64 := {
  b64encode : bytes → string;
  b64decode : string → option bytes;
}.

Class Ed25519 := {
  Ed25519PrivateKey : Type;
  Ed25519PublicKey : Type;
  public_key : Ed25519PrivateKey → Ed25519PublicKey;
  private_bytes : Ed25519PrivateKey → bytes;
  public_bytes : Ed25519PublicKey → bytes;
  from_private_bytes : bytes → option Ed25519PrivateKey;
  from_public_bytes : bytes → option Ed25519PublicKey;
  sign : Ed25519PrivateKey → bytes → bytes;
  (** [verify pk signature data]: [false] when [InvalidSignature] is raised *)
  verify : Ed25519PublicKey → bytes → bytes → bool;
}.

Class Hashlib := {
  (** [hashlib.sha256(b).hexdigest()] *)
  sha256_hexdigest : bytes → string;
}.

Class JsonLib := {
  (** [json.dumps(v, sort_keys=True)] and [json.dumps(v)] *)
  dumps_sorted : Json → string;
  dumps : Json → string;
}.

(** ** Ledger service: [src/backend/ledger/main.py] *)

Module Ledger.

(** Request models. *)
Module NodeRegistration.
Record t := { node_id : string; public_key : option string }.
End NodeRegistration.

Module LedgerEntry.
Record t := { data : string; node_id : string; signature : option string }.
End LedgerEntry.

Module SignRequest.
Record t := { data : string; node_id : string }.
End SignRequest.

(** A value of [node_keys]. *)
Module KeyInfo.
Record t := {
  public_key : string;
  private_key : option string;
  registered_at : Time;
}.
End KeyInfo.

(** An element of [ledger_entries]. *)
Module Stored.
Record t := {
  id : string;
  data : string;
  data_hash : string;
  node_id : string;
  signature : option string;
  verified : bool;
  timestamp : Time;
  block_height : Z;
}.
End Stored.

(** Responses. *)
Module Registered.
Record t := {
  node_id : string;
  public_key : string;
  private_key : option string;
  status : string;
}.
End Registered.

Module Signed.
Record t := { data : string; signature : string; node_id : string }.
End Signed.

Module Verified.
Record t := { valid : bool; node_id : string }.
End Verified.

Module Appended.
Record t := {
  entry_id : string;
  block_height : Z;
  verified : bool;
  data_hash : string;
}.
End Appended.

Module NodeView.
Record t := { node_id : string; public_key : string; registered_at : Time }.
End NodeView.

Module Page.
Record t := {
  entries : list Stored.t;
  total : Z;
  limit : Z;
  offset : Z;
}.
End Page.

Module Metrics.
Record t := {
  total_nodes : Z;
  total_entries : Z;
  verified_entries : Z;
  uptime : Time;
}.
End Metrics.

(** The two module-level stores. *)
Record State := {
  ledger_entries : list Stored.t;
  node_keys : gmap string KeyInfo.t;
}.

Definition initial : State := {| ledger_entries := []; node_keys := ∅ |}.

Section Handlers.
Context `{!Base64, !Ed25519, !Hashlib}.

(** What one handler call draws from its environment. *)
Record Env := {
  generate : Ed25519PrivateKey;
  uuid4 : string;
  time : Time;
}.

(** [base64.b64decode] followed by [Ed25519PublicKey.from_public_bytes]. *)
Definition load_public_key (s : string) : option Ed25519PublicKey :=
  b64decode s ≫= from_public_bytes.

Definition load_private_key (s : string) : option Ed25519PrivateKey :=
  b64decode s ≫= from_private_bytes.

(** POST /nodes/register *)
Definition register_node (env : Env) (registration : NodeRegistration.t)
    (st : State) : State * Result Registered.t :=
  let node_id := NodeRegistration.node_id registration in
  let store (public_key_bytes : bytes) (private_key : option string) :=
    let pk := b64encode public_key_bytes in
    ({| ledger_entries := ledger_entries st;
        node_keys :=
          <[node_id := {| KeyInfo.public_key := pk;
                          KeyInfo.private_key := private_key;
                          KeyInfo.registered_at := time env |}]>
            (node_keys st) |},
     Ok {| Registered.node_id := node_id;
           Registered.public_key := pk;
           Registered.private_key := private_key;
           Registered.status := "registered" |}) in
  if truthy (NodeRegistration.public_key registration) then
    match NodeRegistration.public_key registration ≫= load_public_key with
    | Some public_key => store (public_bytes public_key) None
    | None => (st, HTTPException 400 "Invalid public key")
    end
  else
    let private_key := generate env in
    store (public_bytes (public_key private_key))
          (Some (b64encode (private_bytes private_key))).

(** GET /nodes *)
Definition get_registered_nodes (st : State) : list NodeView.t :=
  (λ '(node_id, key_info),
     {| NodeView.node_id := node_id;
        NodeView.public_key := KeyInfo.public_key key_info;
        NodeView.registered_at := KeyInfo.registered_at key_info |})
  <$> map_to_list (node_keys st).

(** POST /sign *)
Definition sign_data (request : SignRequest.t) (st : State)
    : Result Signed.t :=
  match node_keys st !! SignRequest.node_id request with
  | None => HTTPException 404 "Node not registered"
  | Some node_info =>
      if negb (truthy (KeyInfo.private_key node_info)) then
        HTTPException 400 "Private key not available for this node"
      else
        match KeyInfo.private_key node_info ≫= load_private_key with
        | Some private_key =>
            let signature :=
              sign private_key (encode (SignRequest.data request)) in
            Ok {| Signed.data := SignRequest.data request;
                  Signed.signature := b64encode signature;
                  Signed.node_id := SignRequest.node_id request |}
        | None => HTTPException 500 "Signing failed"
        end
  end.

(** The body of the [try] shared by /verify and /ledger/append: any
    exception means "not verified". *)
Definition check_signature (public_key_b64 signature data : string) : bool :=
  match load_public_key public_key_b64, b64decode signature with
  | Some public_key, Some signature_bytes =>
      verify public_key signature_bytes (encode data)
  | _, _ => false
  end.

(** POST /verify *)
Definition verify_signature (data signature node_id : string) (st : State)
    : Result Verified.t :=
  match node_keys st !! node_id with
  | None => HTTPException 404 "Node not registered"
  | Some key_info =>
      Ok {| Verified.valid :=
              check_signature (KeyInfo.public_key key_info) signature data;
            Verified.node_id := node_id |}
  end.

(** The [verified] flag computed by /ledger/append. *)
Definition append_verified (entry : LedgerEntry.t) (st : State) : bool :=
  if truthy (LedgerEntry.signature entry) then
    match node_keys st !! LedgerEntry.node_id entry,
          LedgerEntry.signature entry with
    | Some key_info, Some signature =>
        check_signature (KeyInfo.public_key key_info) signature
                        (LedgerEntry.data entry)
    | _, _ => false
    end
  else false.

(** POST /ledger/append *)
Definition append_to_ledger (env : Env) (entry : LedgerEntry.t) (st : State)
    : State * Result Appended.t :=
  let verified := append_verified entry st in
  let entry_id := uuid4 env in
  let data_hash := sha256_hexdigest (encode (LedgerEntry.data entry)) in
  let ledger_entry :=
    {| Stored.id := entry_id;
       Stored.data := LedgerEntry.data entry;
       Stored.data_hash := data_hash;
       Stored.node_id := LedgerEntry.node_id entry;
       Stored.signature := LedgerEntry.signature entry;
       Stored.verified := verified;
       Stored.timestamp := time env;
       Stored.block_height := Z.of_nat (length (ledger_entries st)) |} in
  ({| ledger_entries := ledger_entries st ++ [ledger_entry];
      node_keys := node_keys st |},
   Ok {| Appended.entry_id := entry_id;
         Appended.block_height := Stored.block_height ledger_entry;
         Appended.verified := verified;
         Appended.data_hash := data_hash |}).

(** GET /ledger *)
Definition get_ledger (limit offset : Z) (st : State) : Page.t :=
  {| Page.entries := py_slice (ledger_entries st) offset (offset + limit);
     Page.total := Z.of_nat (length (ledger_entries st));
     Page.limit := limit;
     Page.offset := offset |}.

(** GET /ledger/{entry_id} *)
Definition get_ledger_entry (entry_id : string) (st : State)
    : Result Stored.t :=
  match List.find (λ entry, bool_decide (Stored.id entry = entry_id))
                  (ledger_entries st) with
  | Some entry => Ok entry
  | None => HTTPException 404 "Entry not found"
  end.

(** GET /metrics *)
Definition get_metrics (env : Env) (st : State) : Metrics.t :=
  {| Metrics.total_nodes := Z.of_nat (size (node_keys st));
     Metrics.total_entries := Z.of_nat (length (ledger_entries st));
     Metrics.verified_entries :=
       Z.of_nat (length (filter (λ e, Stored.verified e = true)
                                (ledger_entries st)));
     Metrics.uptime := time env |}.

(** The routes of the service and what each answers. *)
Inductive Request :=
  | PostRegister (registration : NodeRegistration.t)
  | GetNodes
  | PostSign (request : SignRequest.t)
  | PostVerify (data signature node_id : string)
  | PostAppend (entry : LedgerEntry.t)
  | GetLedger (limit offset : Z)
  | GetEntry (entry_id : string)
  | GetMetrics
  | GetHealth.

Inductive Response :=
  | RRegistered (r : Registered.t)
  | RNodes (nodes : list NodeView.t)
  | RSigned (r : Signed.t)
  | RVerified (r : Verified.t)
  | RAppended (r : Appended.t)
  | RPage (r : Page.t)
  | REntry (r : Stored.t)
  | RMetrics (r : Metrics.t)
  | RHealth (timestamp : Time).

Definition rmap {A B} (f : A → B) (r : Result A) : Result B :=
  match r with
  | Ok a => Ok (f a)
  | HTTPException c d => HTTPException c d
  end.

Definition handle (env : Env) (req : Request) (st : State)
    : State * Result Response :=
  match req with
  | PostRegister registration =>
      let '(st', r) := register_node env registration st in
      (st', rmap RRegistered r)
  | GetNodes => (st, Ok (RNodes (get_registered_nodes st)))
  | PostSign request => (st, rmap RSigned (sign_data request st))
  | PostVerify data signature node_id =>
      (st, rmap RVerified (verify_signature data signature node_id st))
  | PostAppend entry =>
      let '(st', r) := append_to_ledger env entry st in
      (st', rmap RAppended r)
  | GetLedger limit offset => (st, Ok (RPage (get_ledger limit offset st)))
  | GetEntry entry_id => (st, rmap REntry (get_ledger_entry entry_id st))
  | GetMetrics => (st, Ok (RMetrics (get_metrics env st)))
  | GetHealth => (st, Ok (RHealth (time env)))
  end.

(** The state after a sequence of handler calls, oldest first. *)
Definition run (calls : list (Env * Request)) (st : State) : State :=
  foldl (λ st '(env, req), fst (handle env req st)) st calls.

Definition is_append (call : Env * Request) : bool :=
  match snd call with PostAppend _ => true | _ => false end.

End Handlers.
End Ledger.

(** ** Translator service: [src/backend/translator/main.py] *)

(** [d[k] = v] on a dictionary whose iteration order matters: a key already
    present keeps its place, a new key goes last. *)
Fixpoint dict_set {V} (k : string) (v : V) (d : list (string * V))
    : list (string * V) :=
  match d with
  | [] => [(k, v)]
  | (k', v') :: d' =>
      if decide (k' = k) then (k, v) :: d' else (k', v') :: dict_set k v d'
  end.

Module Translator.

Module SchemaMapping.
Record t := {
  source_schema : string;
  target_schema : string;
  mapping_rules : gmap string Json;
}.
End SchemaMapping.

Module TelemetryEvent.
Record t := {
  event_type : string;
  node_id : string;
  data : gmap string Json;
}.
End TelemetryEvent.

Module TransformRequest.
Record t := {
  data : gmap string Json;
  source_schema : string;
  target_schema : string;
}.
End TransformRequest.

(** A value of [schema_mappings]. *)
Module Mapping.
Record t := {
  id : string;
  source_schema : string;
  target_schema : string;
  mapping_rules : gmap string Json;
  created_at : Time;
}.
End Mapping.

(** The three shapes of an element of [telemetry_data]. *)
Inductive Telemetry :=
  | SchemaRegistered (timestamp : Time)
      (mapping_id source_schema target_schema : string)
  | DataTransformed (timestamp : Time)
      (mapping_id source_schema target_schema : string) (data_size : Z)
  | Logged (id event_type node_id : string) (data : gmap string Json)
      (timestamp : Time).

Module Transformed.
Record t := { transformed_data : gmap string Json; mapping_id : string }.
End Transformed.

Record State := {
  telemetry_data : list Telemetry;
  schema_mappings : list (string * Mapping.t);
}.

Definition initial : State := {| telemetry_data := []; schema_mappings := [] |}.

Record Env := { uuid4 : string; time : Time }.

Section Handlers.
Context `{!JsonLib}.

(** POST /schema/register *)
Definition register_schema_mapping (env : Env) (mapping : SchemaMapping.t)
    (st : State) : State * Result string :=
  let mapping_id := uuid4 env in
  ({| schema_mappings :=
        dict_set mapping_id
          {| Mapping.id := mapping_id;
             Mapping.source_schema := SchemaMapping.source_schema mapping;
             Mapping.target_schema := SchemaMapping.target_schema mapping;
             Mapping.mapping_rules := SchemaMapping.mapping_rules mapping;
             Mapping.created_at := time env |}
          (schema_mappings st);
      telemetry_data :=
        telemetry_data st ++
        [SchemaRegistered (time env) mapping_id
           (SchemaMapping.source_schema mapping)
           (SchemaMapping.target_schema mapping)] |},
   Ok mapping_id).

(** The search loop of /transform: the first value of [schema_mappings],
    in iteration order, with both schema names equal to the request's. *)
Definition find_mapping (source_schema target_schema : string) (st : State)
    : option Mapping.t :=
  List.find
    (λ m, bool_decide (Mapping.source_schema m = source_schema)
          && bool_decide (Mapping.target_schema m = target_schema))
    (snd <$> schema_mappings st).

(** One turn of the copy loop.  [source_field in request.data] looks a
    string up, is false for any other hashable value (the keys of [data]
    are strings), and raises [TypeError] for a list or an object: [None]. *)
Definition copy_field (data : gmap string Json)
    (transformed_data : option (gmap string Json))
    (rule : string * Json) : option (gmap string Json) :=
  acc ← transformed_data;
  match rule.2 with
  | JStr source_field =>
      match data !! source_field with
      | Some v => Some (<[rule.1 := v]> acc)
      | None => Some acc
      end
  | JArr _ | JObj _ => None
  | JNull | JBool _ | JNum _ => Some acc
  end.

(** The copy loop over [mapping["mapping_rules"].items()].  The keys of a
    dictionary are distinct, so the order of the turns does not show in
    the result. *)
Definition apply_rules (mapping_rules data : gmap string Json)
    : option (gmap string Json) :=
  foldl (copy_field data) (Some ∅) (map_to_list mapping_rules).

(** POST /transform *)
Definition transform_data (env : Env) (request : TransformRequest.t)
    (st : State) : State * Result Transformed.t :=
  match find_mapping (TransformRequest.source_schema request)
                     (TransformRequest.target_schema request) st with
  | None => (st, HTTPException 404 "Schema mapping not found")
  | Some mapping =>
      match apply_rules (Mapping.mapping_rules mapping)
                        (TransformRequest.data request) with
      | None => (st, HTTPException 500 "Internal Server Error")
      | Some transformed_data =>
          ({| schema_mappings := schema_mappings st;
              telemetry_data :=
                telemetry_data st ++
                [DataTransformed (time env) (Mapping.id mapping)
                   (TransformRequest.source_schema request)
                   (TransformRequest.target_schema request)
                   (Z.of_nat (String.length
                      (dumps (JObj (TransformRequest.data request)))))] |},
           Ok {| Transformed.transformed_data := transformed_data;
                 Transformed.mapping_id := Mapping.id mapping |})
      end
  end.

(** POST /telemetry *)
Definition log_telemetry (env : Env) (event : TelemetryEvent.t) (st : State)
    : State * Result string :=
  let id := uuid4 env in
  ({| schema_mappings := schema_mappings st;
      telemetry_data :=
        telemetry_data st ++
        [Logged id (TelemetryEvent.event_type event)
           (TelemetryEvent.node_id event) (TelemetryEvent.data event)
           (time env)] |},
   Ok id).

(** GET /telemetry *)
Definition get_telemetry (limit : Z) (st : State) : list Telemetry :=
  py_last (telemetry_data st) limit.

(** GET /schema/mappings *)
Definition get_schema_mappings (st : State) : list Mapping.t :=
  snd <$> schema_mappings st.

(** GET /metrics: the two counts of the answer. *)
Definition get_metrics (st : State) : Z * Z :=
  (Z.of_nat (length (schema_mappings st)),
   Z.of_nat (length (telemetry_data st))).

(** The routes that write to the translator's state. *)
Inductive Request :=
  | PostSchemaRegister (mapping : SchemaMapping.t)
  | PostTransform (request : TransformRequest.t)
  | PostTelemetry (event : TelemetryEvent.t).

Definition handle (env : Env) (req : Request) (st : State) : State :=
  match req with
  | PostSchemaRegister mapping => (register_schema_mapping env mapping st).1
  | PostTransform request => (transform_data env request st).1
  | PostTelemetry event => (log_telemetry env event st).1
  end.

(** The handlers run one after the other, each with its own draws. *)
Definition run (calls : list (Env * Request)) (st : State) : State :=
  foldl (λ st '(env, req), handle env req st) st calls.

Definition is_schema_register (call : Env * Request) : bool :=
  match call.2 with PostSchemaRegister _ => true | _ => false end.

End Handlers.
End Translator.

(** ** Gateway service: [src/backend/gateway/main.py] *)

Module Gateway.

Definition TRANSLATOR_URL : string := "http://localhost:8081".
Definition LEDGER_URL : string := "http://localhost:8082".

(** *** Calls to the environment

    A handler of the gateway awaits HTTP calls to the two other services.
    [await client.post(...)] either raises (connection refused, timeout) or
    gives a response with a status code and a body; [body = None] is a body
    that [response.json()] cannot parse. *)
Inductive HttpOutcome :=
  | Raised (message : string)
  | Responded (status_code : Z) (body : option Json).

Inductive Event : Type → Type :=
  | Post (url : string) (json : Json) : Event HttpOutcome
  | Uuid4 : Event string
  | TimeNow : Event Time.

(** A handler is a program: a tree of calls, each continued with what the
    environment answers. *)
Inductive Prog (A : Type) : Type :=
  | Ret (a : A)
  | Vis {X : Type} (e : Event X) (k : X → Prog A).
Arguments Ret {A} a.
Arguments Vis {A X} e k.

Fixpoint bind {A B} (m : Prog A) (f : A → Prog B) : Prog B :=
  match m with
  | Ret a => f a
  | Vis e k => Vis e (λ x, bind (k x) f)
  end.

Definition call {X} (e : Event X) : Prog X := Vis e Ret.

#[export] Instance prog_ret : MRet Prog := @Ret.
#[export] Instance prog_bind : MBind Prog := λ A B f m, bind m f.

(** One call as it happened, and a run against an environment with state
    [W]: the calls made with their answers, the environment afterwards, and
    the result. *)
Inductive Obs :=
  | ObsPost (url : string) (json : Json) (answer : HttpOutcome)
  | ObsUuid4 (answer : string)
  | ObsTime (answer : Time).

Record Handler (W : Type) := {
  on_post : string → Json → W → W * HttpOutcome;
  on_uuid4 : W → W * string;
  on_time : W → W * Time;
}.
Arguments on_post {W} _ _ _ _.
Arguments on_uuid4 {W} _ _.
Arguments on_time {W} _ _.

Definition answer {W X} (h : Handler W) (e : Event X) : W → W * X :=
  match e in Event X return W → W * X with
  | Post url json => on_post h url json
  | Uuid4 => on_uuid4 h
  | TimeNow => on_time h
  end.

Definition observe {X} (e : Event X) : X → Obs :=
  match e in Event X return X → Obs with
  | Post url json => ObsPost url json
  | Uuid4 => ObsUuid4
  | TimeNow => ObsTime
  end.

Fixpoint exec {W A} (h : Handler W) (p : Prog A) (w : W)
    : list Obs * W * A :=
  match p with
  | Ret a => ([], w, a)
  | Vis e k =>
      let '(w1, x) := answer h e w in
      let '(tr, w2, a) := exec h (k x) w1 in
      (observe e x :: tr, w2, a)
  end.

(** *** Models and stores *)

Module NodeRegistration.
Record t := {
  node_id : string;
  node_type : string;
  capabilities : list string;
  endpoint : option string;
}.
End NodeRegistration.

Module Message.
Record t := {
  from_node : string;
  to_node : string;
  message_type : string;
  data : gmap string Json;
  schema : option string;
}.
End Message.

Module RouteRequest.
Record t := {
  message : Message.t;
  transform_schema : option string;
  commit_to_ledger : bool;
}.
End RouteRequest.

(** A value of [registered_nodes]. *)
Module Node.
Record t := {
  node_id : string;
  node_type : string;
  capabilities : list string;
  endpoint : option string;
  public_key : Json;
  private_key : Json;
  registered_at : Time;
  status : string;
}.
End Node.

(** An element of [message_entry["steps"]]; only the commit step has a
    ["ledger_entry_id"]. *)
Module Step.
Record t := {
  step : string;
  status : string;
  timestamp : Time;
  ledger_entry_id : option Json;
}.
End Step.

(** [message_entry]: the keys of the second group are set when the run
    ends, [None] is a key that was never set. *)
Module MessageEntry.
Record t := {
  id : string;
  hash : string;
  from_node : string;
  to_node : string;
  message_type : string;
  data : gmap string Json;
  schema : option string;
  status : string;
  created_at : Time;
  steps : list Step.t;

  transformed_data : option Json;
  signature : option Json;
  ledger_entry_id : option Json;
  completed_at : option Time;
  error : option string;
  failed_at : option Time;
}.
End MessageEntry.

Module Registered.
Record t := {
  node_id : string;
  status : string;
  public_key : Json;
  private_key : Json;
}.
End Registered.

Module Summary.
Record t := {
  message_id : string;
  status : string;
  hash : string;
  steps : list Step.t;
  ledger_entry_id : Json;
}.
End Summary.

Record State := {
  registered_nodes : gmap string Node.t;
  message_queue : list MessageEntry.t;
  routing_table : gmap string (list string);
}.

Definition initial : State :=
  {| registered_nodes := ∅; message_queue := []; routing_table := ∅ |}.

(** A JSON object from its fields. *)
Definition obj (fields : list (string * Json)) : Json :=
  JObj (list_to_map fields).

(** [ledger_data.get(key)]: [None] on anything but a dictionary, which has
    no [get] ([AttributeError]). *)
Definition dict_get (j : Json) (key : string) : option Json :=
  match j with
  | JObj m => Some (default JNull (m !! key))
  | _ => None
  end.

(** [response.json()[key]]: the value, or the text of the exception. *)
Definition subscript (body : option Json) (key : string) : string + Json :=
  match body with
  | None => inl "Expecting value: line 1 column 1 (char 0)"
  | Some (JObj m) =>
      match m !! key with
      | Some v => inr v
      | None => inl ("'" +:+ key +:+ "'")
      end
  | Some _ => inl "TypeError"
  end.

(** The loop that enters a node under each of its capabilities. *)
Definition add_routes (node_id : string) (capabilities : list string)
    (routing_table : gmap string (list string)) : gmap string (list string) :=
  foldl (λ table capability,
           <[capability := default [] (table !! capability) ++ [node_id]]> table)
        routing_table capabilities.

(** POST /nodes/register *)
Definition register_node (registration : NodeRegistration.t) (st : State)
    : Prog (State * Result Registered.t) :=
  let node_id := NodeRegistration.node_id registration in
  ledger_response ←
    call (Post (LEDGER_URL +:+ "/nodes/register")
               (obj [("node_id", JStr node_id)]));
  match ledger_response with
  | Raised e => Ret (st, HTTPException 503 ("Ledger service unavailable: " +:+ e))
  | Responded _ None =>
      Ret (st, HTTPException 503 "Ledger service unavailable: Expecting value")
  | Responded _ (Some ledger_data) =>
      match dict_get ledger_data "public_key",
            dict_get ledger_data "private_key" with
      | Some public_key, Some private_key =>
          now ← call TimeNow;
          Ret ({| registered_nodes :=
                    <[node_id :=
                        {| Node.node_id := node_id;
                           Node.node_type :=
                             NodeRegistration.node_type registration;
                           Node.capabilities :=
                             NodeRegistration.capabilities registration;
                           Node.endpoint :=
                             NodeRegistration.endpoint registration;
                           Node.public_key := public_key;
                           Node.private_key := private_key;
                           Node.registered_at := now;
                           Node.status := "active" |}]>
                      (registered_nodes st);
                  message_queue := message_queue st;
                  routing_table :=
                    add_routes node_id
                      (NodeRegistration.capabilities registration)
                      (routing_table st) |},
               Ok {| Registered.node_id := node_id;
                     Registered.status := "registered";
                     Registered.public_key := public_key;
                     Registered.private_key := private_key |})
      | _, _ => Ret (st, HTTPException 500 "Internal Server Error")
      end
  end.

(** GET /nodes *)
Definition get_registered_nodes (st : State) : list Node.t :=
  snd <$> map_to_list (registered_nodes st).


(** GET /messages *)
Definition get_messages (limit : Z) (node_id : option string) (st : State)
    : list MessageEntry.t :=
  let messages :=
    match node_id with
    | Some n =>
        if truthy node_id then
          List.filter
            (λ m, bool_decide (MessageEntry.from_node m = n)
                  || bool_decide (MessageEntry.to_node m = n))
            (message_queue st)
        else message_queue st
    | None => message_queue st
    end in
  py_last messages limit.

(** GET /messages/{message_id} *)
Definition get_message (message_id : string) (st : State)
    : Result MessageEntry.t :=
  match List.find (λ m, bool_decide (MessageEntry.id m = message_id))
                  (message_queue st) with
  | Some message => Ok message
  | None => HTTPException 404 "Message not found"
  end.

(** GET /routing *)
Definition get_routing_table (st : State) : gmap string (list string) :=
  routing_table st.

(** GET /status.  Each of the two health checks is a GET in a [try] of its
    own, with a bare [except]; what the two calls gave is handed in. *)
Module Status.
Record t := {
  gateway : string;
  translator : string;
  ledger : string;
  registered_nodes : Z;
  messages_processed : Z;
  uptime : Time;
}.
End Status.

Definition service_status (health : HttpOutcome) : string :=
  match health with
  | Raised _ => "unreachable"
  | Responded status_code _ =>
      if status_code =? 200 then "healthy" else "unhealthy"
  end.

Definition get_system_status (translator_health ledger_health : HttpOutcome)
    (now : Time) (st : State) : Status.t :=
  {| Status.gateway := "healthy";
     Status.translator := service_status translator_health;
     Status.ledger := service_status ledger_health;
     Status.registered_nodes := Z.of_nat (size (registered_nodes st));
     Status.messages_processed := Z.of_nat (length (message_queue st));
     Status.uptime := now |}.

(** GET /metrics *)
Module Metrics.
Record t := {
  total_nodes : Z;
  total_messages : Z;
  successful_messages : Z;
  failed_messages : Z;
  routing_capabilities : Z;
  uptime : Time;
}.
End Metrics.

Definition count_status (status : string) (messages : list MessageEntry.t) : Z :=
  Z.of_nat
    (length (List.filter (λ m, bool_decide (MessageEntry.status m = status))
                         messages)).

Definition get_metrics (now : Time) (st : State) : Metrics.t :=
  {| Metrics.total_nodes := Z.of_nat (size (registered_nodes st));
     Metrics.total_messages := Z.of_nat (length (message_queue st));
     Metrics.successful_messages := count_status "completed" (message_queue st);
     Metrics.failed_messages := count_status "failed" (message_queue st);
     Metrics.routing_capabilities := Z.of_nat (size (routing_table st));
     Metrics.uptime := now |}.

(** *** The message pipeline

    The body of the [try] of [send_message] appends to
    [message_entry["steps"]] as it goes and may raise at any call; what it
    has done to [message_entry] by then stays done.  [ledger_entry_id] is
    the one local variable that is read after the [try]: it is bound by the
    first statement of step 3, [None] here is "not bound yet". *)
Record Locals := {
  message_entry : MessageEntry.t;
  ledger_entry_id : option Json;
}.

Definition Try (A : Type) : Type := Locals → Prog (Locals * (string + A)).

Definition try_ret {A} (a : A) : Try A := λ l, Ret (l, inr a).

Definition try_bind {A B} (m : Try A) (f : A → Try B) : Try B :=
  λ l, bind (m l) (λ r, match r.2 with
                        | inl e => Ret (r.1, inl e)
                        | inr a => f a r.1
                        end).

#[export] Instance Try_ret : MRet Try := @try_ret.
#[export] Instance Try_bind : MBind Try := λ A B f m, try_bind m f.

Definition raise {A} (e : string) : Try A := λ l, Ret (l, inl e).

Definition lift {A} (r : string + A) : Try A := λ l, Ret (l, r).

Definition time_now : Try Time := λ l, Vis TimeNow (λ t, Ret (l, inr t)).

(** [await client.post(url, json=json)]: the response, unless the call
    raises. *)
Definition post (url : string) (json : Json) : Try (Z * option Json) :=
  λ l, Vis (Post url json)
           (λ o, match o with
                 | Raised e => Ret (l, inl e)
                 | Responded status_code body => Ret (l, inr (status_code, body))
                 end).

(** [message_entry["steps"].append(s)] *)
Definition record_step (s : Step.t) : Try unit :=
  λ l,
    let e := message_entry l in
    Ret ({| message_entry :=
              {| MessageEntry.id := MessageEntry.id e;
                 MessageEntry.hash := MessageEntry.hash e;
                 MessageEntry.from_node := MessageEntry.from_node e;
                 MessageEntry.to_node := MessageEntry.to_node e;
                 MessageEntry.message_type := MessageEntry.message_type e;
                 MessageEntry.data := MessageEntry.data e;
                 MessageEntry.schema := MessageEntry.schema e;
                 MessageEntry.status := MessageEntry.status e;
                 MessageEntry.created_at := MessageEntry.created_at e;
                 MessageEntry.steps := MessageEntry.steps e ++ [s];
                 MessageEntry.transformed_data := MessageEntry.transformed_data e;
                 MessageEntry.signature := MessageEntry.signature e;
                 MessageEntry.ledger_entry_id := MessageEntry.ledger_entry_id e;
                 MessageEntry.completed_at := MessageEntry.completed_at e;
                 MessageEntry.error := MessageEntry.error e;
                 MessageEntry.failed_at := MessageEntry.failed_at e |};
            ledger_entry_id := ledger_entry_id l |},
         inr ()).

(** [ledger_entry_id = v] *)
Definition bind_ledger_entry_id (v : Json) : Try unit :=
  λ l, Ret ({| message_entry := message_entry l; ledger_entry_id := Some v |},
            inr ()).

Definition completed_step (name : string) (now : Time) (id : option Json)
    : Step.t :=
  {| Step.step := name; Step.status := "completed"; Step.timestamp := now;
     Step.ledger_entry_id := id |}.

Section Pipeline.
Context `{!Hashlib, !JsonLib}.

(** [message.dict()] *)
Definition message_dict (message : Message.t) : Json :=
  obj [("from_node", JStr (Message.from_node message));
       ("to_node", JStr (Message.to_node message));
       ("message_type", JStr (Message.message_type message));
       ("data", JObj (Message.data message));
       ("schema", json_opt (Message.schema message))].

(** Step 1: Transform data if needed.  Gives [transformed_data]. *)
Definition step_transform (route_request : RouteRequest.t) : Try Json :=
  let message := RouteRequest.message route_request in
  let transformed_data := JObj (Message.data message) in
  if truthy (RouteRequest.transform_schema route_request)
     && truthy (Message.schema message) then
    transform_response ←
      post (TRANSLATOR_URL +:+ "/transform")
           (obj [("data", JObj (Message.data message));
                 ("source_schema", json_opt (Message.schema message));
                 ("target_schema",
                  json_opt (RouteRequest.transform_schema route_request))]);
    if transform_response.1 =? 200 then
      transformed_data ← lift (subscript transform_response.2 "transformed_data");
      now ← time_now;
      record_step (completed_step "transform" now None);;
      mret transformed_data
    else mret transformed_data
  else mret transformed_data.

(** Step 2: Sign message with sender's key.  Gives [signature]. *)
Definition step_sign (route_request : RouteRequest.t) (st : State)
    (transformed_data : Json) : Try Json :=
  let message := RouteRequest.message route_request in
  let signature := JNull in
  match registered_nodes st !! Message.from_node message with
  | None => raise ("'" +:+ Message.from_node message +:+ "'")
  | Some sender_node =>
      if py_truthy (Node.private_key sender_node) then
        sign_response ←
          post (LEDGER_URL +:+ "/sign")
               (obj [("data", JStr (dumps_sorted transformed_data));
                     ("node_id", JStr (Message.from_node message))]);
        if sign_response.1 =? 200 then
          signature ← lift (subscript sign_response.2 "signature");
          now ← time_now;
          record_step (completed_step "sign" now None);;
          mret signature
        else mret signature
      else mret signature
  end.

(** Step 3: Commit to ledger if requested.  Binds [ledger_entry_id]. *)
Definition step_commit (route_request : RouteRequest.t)
    (message_id message_hash : string) (transformed_data signature : Json)
    : Try Json :=
  let message := RouteRequest.message route_request in
  bind_ledger_entry_id JNull;;
  if RouteRequest.commit_to_ledger route_request then
    let ledger_data :=
      obj [("message_id", JStr message_id);
           ("from_node", JStr (Message.from_node message));
           ("to_node", JStr (Message.to_node message));
           ("message_type", JStr (Message.message_type message));
           ("hash", JStr message_hash);
           ("transformed_data", transformed_data)] in
    ledger_response ←
      post (LEDGER_URL +:+ "/ledger/append")
           (obj [("data", JStr (dumps_sorted ledger_data));
                 ("node_id", JStr (Message.from_node message));
                 ("signature", signature)]);
    if ledger_response.1 =? 200 then
      entry_id ← lift (subscript ledger_response.2 "entry_id");
      bind_ledger_entry_id entry_id;;
      now ← time_now;
      record_step (completed_step "commit_ledger" now (Some entry_id));;
      mret entry_id
    else mret JNull
  else mret JNull.

(** Step 4: Log telemetry.  The response is not looked at. *)
Definition step_notify (route_request : RouteRequest.t)
    (message_id message_hash : string) : Try unit :=
  let message := RouteRequest.message route_request in
  post (TRANSLATOR_URL +:+ "/telemetry")
       (obj [("event_type", JStr "message_routed");
             ("node_id", JStr (Message.from_node message));
             ("data",
              obj [("message_id", JStr message_id);
                   ("to_node", JStr (Message.to_node message));
                   ("message_type", JStr (Message.message_type message));
                   ("hash", JStr message_hash)])]);;
  mret ().

(** The last statements of the [try]. *)
Definition set_completed (transformed_data signature ledger_entry_id : Json)
    (now : Time) : Try unit :=
  λ l,
    let e := message_entry l in
    Ret ({| message_entry :=
              {| MessageEntry.id := MessageEntry.id e;
                 MessageEntry.hash := MessageEntry.hash e;
                 MessageEntry.from_node := MessageEntry.from_node e;
                 MessageEntry.to_node := MessageEntry.to_node e;
                 MessageEntry.message_type := MessageEntry.message_type e;
                 MessageEntry.data := MessageEntry.data e;
                 MessageEntry.schema := MessageEntry.schema e;
                 MessageEntry.status := "completed";
                 MessageEntry.created_at := MessageEntry.created_at e;
                 MessageEntry.steps := MessageEntry.steps e;
                 MessageEntry.transformed_data := Some transformed_data;
                 MessageEntry.signature := Some signature;
                 MessageEntry.ledger_entry_id := Some ledger_entry_id;
                 MessageEntry.completed_at := Some now;
                 MessageEntry.error := MessageEntry.error e;
                 MessageEntry.failed_at := MessageEntry.failed_at e |};
            Gateway.ledger_entry_id := Gateway.ledger_entry_id l |},
         inr ()).

Definition complete (transformed_data signature ledger_entry_id : Json)
    : Try unit :=
  now ← time_now;
  set_completed transformed_data signature ledger_entry_id now.

(** The body of the [try]. *)
Definition pipeline (route_request : RouteRequest.t) (st : State)
    (message_id message_hash : string) : Try unit :=
  transformed_data ← step_transform route_request;
  signature ← step_sign route_request st transformed_data;
  ledger_entry_id ← step_commit route_request message_id message_hash
                                transformed_data signature;
  step_notify route_request message_id message_hash;;
  complete transformed_data signature ledger_entry_id.

(** The [except Exception as e] clause. *)
Definition fail (e : MessageEntry.t) (error : string) (now : Time)
    : MessageEntry.t :=
  {| MessageEntry.id := MessageEntry.id e;
     MessageEntry.hash := MessageEntry.hash e;
     MessageEntry.from_node := MessageEntry.from_node e;
     MessageEntry.to_node := MessageEntry.to_node e;
     MessageEntry.message_type := MessageEntry.message_type e;
     MessageEntry.data := MessageEntry.data e;
     MessageEntry.schema := MessageEntry.schema e;
     MessageEntry.status := "failed";
     MessageEntry.created_at := MessageEntry.created_at e;
     MessageEntry.steps := MessageEntry.steps e;
     MessageEntry.transformed_data := MessageEntry.transformed_data e;
     MessageEntry.signature := MessageEntry.signature e;
     MessageEntry.ledger_entry_id := MessageEntry.ledger_entry_id e;
     MessageEntry.completed_at := MessageEntry.completed_at e;
     MessageEntry.error := Some error;
     MessageEntry.failed_at := Some now |}.

(** [message_queue.append(message_entry)] and the [return]: reading
    [ledger_entry_id] while it is not bound raises [UnboundLocalError],
    which nothing catches. *)
Definition enqueue (st : State) (message_id message_hash : string)
    (entry : MessageEntry.t) (ledger_entry_id : option Json)
    : State * Result Summary.t :=
  ({| registered_nodes := registered_nodes st;
      message_queue := message_queue st ++ [entry];
      routing_table := routing_table st |},
   match ledger_entry_id with
   | Some id =>
       Ok {| Summary.message_id := message_id;
             Summary.status := MessageEntry.status entry;
             Summary.hash := message_hash;
             Summary.steps := MessageEntry.steps entry;
             Summary.ledger_entry_id := id |}
   | None => HTTPException 500 "Internal Server Error"
   end).

(** POST /messages/send *)
Definition send_message (route_request : RouteRequest.t) (st : State)
    : Prog (State * Result Summary.t) :=
  let message := RouteRequest.message route_request in
  if bool_decide (registered_nodes st !! Message.from_node message = None)
  then Ret (st, HTTPException 404 "From node not registered")
  else if bool_decide (registered_nodes st !! Message.to_node message = None)
  then Ret (st, HTTPException 404 "To node not registered")
  else
    let message_data := dumps_sorted (message_dict message) in
    let message_hash := sha256_hexdigest (encode message_data) in
    message_id ← call Uuid4;
    created_at ← call TimeNow;
    let message_entry :=
      {| MessageEntry.id := message_id;
         MessageEntry.hash := message_hash;
         MessageEntry.from_node := Message.from_node message;
         MessageEntry.to_node := Message.to_node message;
         MessageEntry.message_type := Message.message_type message;
         MessageEntry.data := Message.data message;
         MessageEntry.schema := Message.schema message;
         MessageEntry.status := "processing";
         MessageEntry.created_at := created_at;
         MessageEntry.steps := [];
         MessageEntry.transformed_data := None;
         MessageEntry.signature := None;
         MessageEntry.ledger_entry_id := None;
         MessageEntry.completed_at := None;
         MessageEntry.error := None;
         MessageEntry.failed_at := None |} in
    r ← pipeline route_request st message_id message_hash
           {| Gateway.message_entry := message_entry;
              Gateway.ledger_entry_id := None |};
    match r.2 with
    | inr _ =>
        Ret (enqueue st message_id message_hash
               (Gateway.message_entry r.1) (Gateway.ledger_entry_id r.1))
    | inl e =>
        failed_at ← call TimeNow;
        Ret (enqueue st message_id message_hash
               (fail (Gateway.message_entry r.1) e failed_at)
               (Gateway.ledger_entry_id r.1))
    end.

End Pipeline.
End Gateway.


(** ** A stand-in for the libraries

    To run the services on inputs, the library interfaces need an instance.
    This one keeps what the services rely on and nothing of the cryptography:
    text encodings are hexadecimal, a key pair is one seed byte written out
    32 times, and a signature is the key followed by the signed bytes. *)

Module Standin.

Definition nibble (n : N) : Ascii.ascii :=
  Ascii.ascii_of_N (if (n <? 10)%N then 48 + n else 87 + n).

Definition hex_byte (b : Byte.byte) : string :=
  let n := Byte.to_N b in
  String (nibble (n / 16)) (String (nibble (n mod 16)) EmptyString).

Definition hex (b : bytes) : string := foldr (λ x acc, hex_byte x +:+ acc) "" b.

Definition unnibble (c : Ascii.ascii) : option N :=
  let n := Ascii.N_of_ascii c in
  if ((48 <=? n) && (n <=? 57))%N then Some (n - 48)%N
  else if ((97 <=? n) && (n <=? 102))%N then Some (n - 87)%N
  else None.

Fixpoint unhex (s : string) : option bytes :=
  match s with
  | EmptyString => Some []
  | String h (String l s') =>
      h ← unnibble h; l ← unnibble l; b ← Byte.of_N (16 * h + l)%N;
      r ← unhex s'; Some (b :: r)
  | _ => None
  end.

#[export] Instance base64 : Base64 := {| b64encode := hex; b64decode := unhex |}.

#[export] Instance byte_eq_dec : EqDecision Byte.byte :=
  λ x y,
    match Byte.eqb x y as c return Byte.eqb x y = c → Decision (x = y) with
    | true => λ E, left (Byte.byte_dec_bl x y E)
    | false => λ E, right (Byte.eqb_false E)
    end eq_refl.

Definition key_of_bytes (b : bytes) : option Byte.byte :=
  match b with
  | k :: _ => if bool_decide (length b = 32%nat) then Some k else None
  | [] => None
  end.

#[export] Instance ed25519 : Ed25519 := {|
  Ed25519PrivateKey := Byte.byte;
  Ed25519PublicKey := Byte.byte;
  public_key := λ sk, sk;
  private_bytes := λ sk, replicate 32 sk;
  public_bytes := λ pk, replicate 32 pk;
  from_private_bytes := key_of_bytes;
  from_public_bytes := key_of_bytes;
  sign := λ sk data, sk :: data;
  verify := λ pk signature data, bool_decide (signature = pk :: data);
|}.

#[export] Instance hashlib : Hashlib := {| sha256_hexdigest := hex |}.

Fixpoint render (j : Json) : string :=
  match j with
  | JNull => "null"
  | JBool b => if b then "true" else "false"
  | JNum n => pretty n
  | JStr s => "'" +:+ s +:+ "'"
  | JArr l => "[" +:+ foldr (λ x acc, render x +:+ "," +:+ acc) "" l +:+ "]"
  | JObj m =>
      "{" +:+ map_fold (λ k v acc, "'" +:+ k +:+ "':" +:+ render v +:+ "," +:+ acc)
                       "" m +:+ "}"
  end.

#[export] Instance jsonlib : JsonLib := {| dumps_sorted := render; dumps := render |}.

End Standin.

(** ** The three services together

    The ledger and the translator as the environment of the gateway: a POST
    of the gateway is parsed into the request model of the route (a body
    that does not fit the model is answered 422, a raised [HTTPException]
    with its status code and detail), handled, and the result sent back as
    JSON.  [faults] overrides the answer of chosen routes, to run the gateway
    against a service that is down or failing. *)

Module Deployment.
Import Standin.

Record World := {
  ledger : Ledger.State;
  translator : Translator.State;
  (** the source of identifiers, clock readings and key seeds *)
  ticks : N;
}.

Definition boot : World :=
  {| ledger := Ledger.initial; translator := Translator.initial; ticks := 0 |}.

Definition tick (w : World) : World :=
  {| ledger := ledger w; translator := translator w; ticks := N.succ (ticks w) |}.

Definition uuid_of (n : N) : string := "uuid-" +:+ pretty n.

Definition seed_of (n : N) : Byte.byte := default Byte.x00 (Byte.of_N (n mod 256)).

Definition ledger_env (w : World) : Ledger.Env :=
  {| Ledger.generate := seed_of (ticks w);
     Ledger.uuid4 := uuid_of (ticks w);
     Ledger.time := Z.of_N (ticks w) |}.

Definition translator_env (w : World) : Translator.Env :=
  {| Translator.uuid4 := uuid_of (ticks w);
     Translator.time := Z.of_N (ticks w) |}.

Definition field (body : Json) (key : string) : Json :=
  match body with
  | JObj m => default JNull (m !! key)
  | _ => JNull
  end.

Definition as_str (j : Json) : option string :=
  match j with JStr s => Some s | _ => None end.

(** An [Optional[str]] field: absent or [null] is [None]. *)
Definition as_opt_str (j : Json) : option (option string) :=
  match j with
  | JNull => Some None
  | JStr s => Some (Some s)
  | _ => None
  end.

Definition as_dict (j : Json) : option (gmap string Json) :=
  match j with JObj m => Some m | _ => None end.

Definition reply {A} (to_json : A → Json) (r : Result A) : Gateway.HttpOutcome :=
  match r with
  | Ok a => Gateway.Responded 200 (Some (to_json a))
  | HTTPException status_code detail =>
      Gateway.Responded status_code (Some (Gateway.obj [("detail", JStr detail)]))
  end.

Definition unprocessable : Gateway.HttpOutcome :=
  Gateway.Responded 422 (Some (Gateway.obj [("detail", JStr "validation error")])).

Definition registered_json (r : Ledger.Registered.t) : Json :=
  Gateway.obj [("node_id", JStr (Ledger.Registered.node_id r));
               ("public_key", JStr (Ledger.Registered.public_key r));
               ("private_key", json_opt (Ledger.Registered.private_key r));
               ("status", JStr (Ledger.Registered.status r))].

Definition signed_json (r : Ledger.Signed.t) : Json :=
  Gateway.obj [("data", JStr (Ledger.Signed.data r));
               ("signature", JStr (Ledger.Signed.signature r));
               ("node_id", JStr (Ledger.Signed.node_id r))].

Definition appended_json (r : Ledger.Appended.t) : Json :=
  Gateway.obj [("entry_id", JStr (Ledger.Appended.entry_id r));
               ("block_height", JNum (Ledger.Appended.block_height r));
               ("verified", JBool (Ledger.Appended.verified r));
               ("data_hash", JStr (Ledger.Appended.data_hash r))].

Definition transformed_json (r : Translator.Transformed.t) : Json :=
  Gateway.obj [("transformed_data", JObj (Translator.Transformed.transformed_data r));
               ("mapping_id", JStr (Translator.Transformed.mapping_id r))].

Definition logged_json (event_id : string) : Json :=
  Gateway.obj [("status", JStr "logged"); ("event_id", JStr event_id)].

Definition with_ledger (w : World) (st : Ledger.State) : World :=
  tick {| ledger := st; translator := translator w; ticks := ticks w |}.

Definition with_translator (w : World) (st : Translator.State) : World :=
  tick {| ledger := ledger w; translator := st; ticks := ticks w |}.

Definition serve (url : string) (body : Json) (w : World)
    : World * Gateway.HttpOutcome :=
  if bool_decide (url = Gateway.LEDGER_URL +:+ "/nodes/register") then
    match as_str (field body "node_id"), as_opt_str (field body "public_key") with
    | Some node_id, Some public_key =>
        let '(st, r) :=
          Ledger.register_node (ledger_env w)
            {| Ledger.NodeRegistration.node_id := node_id;
               Ledger.NodeRegistration.public_key := public_key |}
            (ledger w) in
        (with_ledger w st, reply registered_json r)
    | _, _ => (w, unprocessable)
    end
  else if bool_decide (url = Gateway.LEDGER_URL +:+ "/sign") then
    match as_str (field body "data"), as_str (field body "node_id") with
    | Some data, Some node_id =>
        (w, reply signed_json
              (Ledger.sign_data
                 {| Ledger.SignRequest.data := data;
                    Ledger.SignRequest.node_id := node_id |}
                 (ledger w)))
    | _, _ => (w, unprocessable)
    end
  else if bool_decide (url = Gateway.LEDGER_URL +:+ "/ledger/append") then
    match as_str (field body "data"), as_str (field body "node_id"),
          as_opt_str (field body "signature") with
    | Some data, Some node_id, Some signature =>
        let '(st, r) :=
          Ledger.append_to_ledger (ledger_env w)
            {| Ledger.LedgerEntry.data := data;
               Ledger.LedgerEntry.node_id := node_id;
               Ledger.LedgerEntry.signature := signature |}
            (ledger w) in
        (with_ledger w st, reply appended_json r)
    | _, _, _ => (w, unprocessable)
    end
  else if bool_decide (url = Gateway.TRANSLATOR_URL +:+ "/transform") then
    match as_dict (field body "data"), as_str (field body "source_schema"),
          as_str (field body "target_schema") with
    | Some data, Some source_schema, Some target_schema =>
        let '(st, r) :=
          Translator.transform_data (translator_env w)
            {| Translator.TransformRequest.data := data;
               Translator.TransformRequest.source_schema := source_schema;
               Translator.TransformRequest.target_schema := target_schema |}
            (translator w) in
        (with_translator w st, reply transformed_json r)
    | _, _, _ => (w, unprocessable)
    end
  else if bool_decide (url = Gateway.TRANSLATOR_URL +:+ "/telemetry") then
    match as_str (field body "event_type"), as_str (field body "node_id"),
          as_dict (field body "data") with
    | Some event_type, Some node_id, Some data =>
        let '(st, r) :=
          Translator.log_telemetry (translator_env w)
            {| Translator.TelemetryEvent.event_type := event_type;
               Translator.TelemetryEvent.node_id := node_id;
               Translator.TelemetryEvent.data := data |}
            (translator w) in
        (with_translator w st, reply logged_json r)
    | _, _, _ => (w, unprocessable)
    end
  else (w, Gateway.Responded 404 (Some (Gateway.obj [("detail", JStr "Not Found")]))).

Definition services (faults : string → option Gateway.HttpOutcome)
    : Gateway.Handler World :=
  {| Gateway.on_post := λ url body w,
       match faults url with
       | Some outcome => (w, outcome)
       | None => serve url body w
       end;
     Gateway.on_uuid4 := λ w, (tick w, uuid_of (ticks w));
     Gateway.on_time := λ w, (tick w, Z.of_N (ticks w)) |}.

Definition healthy : string → option Gateway.HttpOutcome := λ _, None.

(** The route [route] raises. *)
Definition unreachable (route : string) : string → option Gateway.HttpOutcome :=
  λ url, if bool_decide (url = route)
         then Some (Gateway.Raised "All connection attempts failed") else None.

(** The route [route] answers with status [status_code]. *)
Definition failing (route : string) (status_code : Z)
    : string → option Gateway.HttpOutcome :=
  λ url, if bool_decide (url = route)
         then Some (Gateway.Responded status_code
                      (Some (Gateway.obj [("detail", JStr "Internal Server Error")])))
         else None.

(** A gateway in front of two fresh services, after these registrations. *)
Definition registration (node_id : string) : Gateway.NodeRegistration.t :=
  {| Gateway.NodeRegistration.node_id := node_id;
     Gateway.NodeRegistration.node_type := "ai";
     Gateway.NodeRegistration.capabilities := ["chat"];
     Gateway.NodeRegistration.endpoint := None |}.

Definition register_all (node_ids : list string) : World * Gateway.State :=
  foldl (λ '(w, st) node_id,
           let '(_, w', (st', _)) :=
             Gateway.exec (services healthy)
               (Gateway.register_node (registration node_id) st) w in
           (w', st'))
        (boot, Gateway.initial) node_ids.

Definition hello (from_node to_node : string) (commit : bool)
    : Gateway.RouteRequest.t :=
  {| Gateway.RouteRequest.message :=
       {| Gateway.Message.from_node := from_node;
          Gateway.Message.to_node := to_node;
          Gateway.Message.message_type := "greeting";
          Gateway.Message.data := {["text" := JStr "hello"]};
          Gateway.Message.schema := None |};
     Gateway.RouteRequest.transform_schema := None;
     Gateway.RouteRequest.commit_to_ledger := commit |}.

(** The same message with a source schema and a target schema. *)
Definition translated (from_node to_node : string) : Gateway.RouteRequest.t :=
  {| Gateway.RouteRequest.message :=
       {| Gateway.Message.from_node := from_node;
          Gateway.Message.to_node := to_node;
          Gateway.Message.message_type := "greeting";
          Gateway.Message.data := {["text" := JStr "hello"]};
          Gateway.Message.schema := Some "v1" |};
     Gateway.RouteRequest.transform_schema := Some "v2";
     Gateway.RouteRequest.commit_to_ledger := true |}.

(** Nodes A and B registered, then one message submitted while the services
    have the given faults. *)
Definition two_nodes : World * Gateway.State := register_all ["A"; "B"].

Definition submit (faults : string → option Gateway.HttpOutcome)
    (route_request : Gateway.RouteRequest.t)
    : list Gateway.Obs * World * (Gateway.State * Result Gateway.Summary.t) :=
  Gateway.exec (services faults)
    (Gateway.send_message route_request two_nodes.2) two_nodes.1.

(** The body of the POST to [url] in a run, if there is one. *)
Definition posted (url : string) (tr : list Gateway.Obs) : Json :=
  default JNull
    (head (omap (λ o, match o with
                      | Gateway.ObsPost url' json _ =>
                          if bool_decide (url' = url) then Some json else None
                      | _ => None
                      end) tr)).

(** What the environment hands to the [n]-th call of a ledger run. *)
Definition env_at (n : N) : Ledger.Env :=
  {| Ledger.generate := seed_of n;
     Ledger.uuid4 := uuid_of n;
     Ledger.time := Z.of_N n |}.

Definition register_call (n : N) (node_id : string) (supplied : option string)
    : Ledger.Env * Ledger.Request :=
  (env_at n,
   Ledger.PostRegister {| Ledger.NodeRegistration.node_id := node_id;
                          Ledger.NodeRegistration.public_key := supplied |}).

(** A translator with one mapping from schema v1 to schema v2. *)
Definition one_mapping : Translator.State :=
  (Translator.register_schema_mapping
     {| Translator.uuid4 := uuid_of 0; Translator.time := 0 |}
     {| Translator.SchemaMapping.source_schema := "v1";
        Translator.SchemaMapping.target_schema := "v2";
        Translator.SchemaMapping.mapping_rules :=
          {["greeting" := JStr "text"; "sender" := JStr "author"]} |}
     Translator.initial).1.

(** An append in A's name. *)
Definition append_call (n : N) (data : string) : Ledger.Env * Ledger.Request :=
  (env_at n,
   Ledger.PostAppend {| Ledger.LedgerEntry.data := data;
                        Ledger.LedgerEntry.node_id := "A";
                        Ledger.LedgerEntry.signature := None |}).

(** Three appends in A's name after A's registration. *)
Definition busy_ledger : list (Ledger.Env * Ledger.Request) :=
  [register_call 0 "A" None; append_call 1 "one"; append_call 2 "two";
   append_call 3 "three"].

End Deployment.


(** * Vocabulary of the properties *)

Section LedgerVocabulary.
Context `{!Base64, !Ed25519, !Hashlib}.
Import Ledger.

(** The entry that [append_to_ledger] builds. *)
Definition new_entry (env : Env) (entry : LedgerEntry.t) (st : State) : Stored.t :=
  {| Stored.id := uuid4 env;
     Stored.data := LedgerEntry.data entry;
     Stored.data_hash := sha256_hexdigest (encode (LedgerEntry.data entry));
     Stored.node_id := LedgerEntry.node_id entry;
     Stored.signature := LedgerEntry.signature entry;
     Stored.verified := append_verified entry st;
     Stored.timestamp := time env;
     Stored.block_height := Z.of_nat (length (ledger_entries st)) |}.

(** The number of appends among the calls served. *)
Definition appends (calls : list (Env * Request)) : nat :=
  length (List.filter is_append calls).

(** [call] is a registration of [node_id]. *)
Definition registers (node_id : string) (call : Env * Request) : Prop :=
  match call.2 with
  | PostRegister registration => NodeRegistration.node_id registration = node_id
  | _ => False
  end.

(** A ledger that knows one node only. *)
Definition only (node_id : string) (key_info : KeyInfo.t) : State :=
  {| ledger_entries := []; node_keys := {[node_id := key_info]} |}.

(** A stored private key is the private half of the stored public key. *)
Definition in_custody (key_info : KeyInfo.t) : Prop :=
  ∀ p, KeyInfo.private_key key_info = Some p →
       ∃ sk, p = b64encode (private_bytes sk)
             ∧ KeyInfo.public_key key_info
               = b64encode (public_bytes (public_key sk)).

End LedgerVocabulary.

(** What the ledger relies on from [base64] and from the Ed25519 keys:
    decoding undoes encoding, keys and signatures are not empty, and a
    signature made with a private key verifies under its public key. *)
Class LibraryLaws `{Base64, Ed25519} : Prop := {
  b64decode_b64encode b : b64decode (b64encode b) = Some b;
  b64encode_nonempty b : b ≠ [] → b64encode b ≠ "";
  from_private_bytes_private_bytes sk :
    from_private_bytes (private_bytes sk) = Some sk;
  from_public_bytes_public_bytes pk :
    from_public_bytes (public_bytes pk) = Some pk;
  private_bytes_nonempty sk : private_bytes sk ≠ [];
  sign_nonempty sk data : sign sk data ≠ [];
  verify_sign sk data : verify (public_key sk) (sign sk data) data = true;
}.

(** A value that Python can hash, and so can look up in a dictionary: any
    JSON value but a list or an object. *)
Definition hashable (j : Json) : Prop :=
  match j with
  | JArr _ | JObj _ => False
  | _ => True
  end.



Section GatewayVocabulary.
Import Gateway.

(** [wp p Q]: whatever the environment answers to the calls of [p], the
    calls made, with their answers, and the result are in [Q]. *)
Fixpoint wp {A} (p : Prog A) (Q : list Obs → A → Prop) : Prop :=
  match p with
  | Ret a => Q [] a
  | Vis e k => ∀ x, wp (k x) (λ tr, Q (observe e x :: tr))
  end.


(** The pipeline step that a route serves and the field of its answer that
    the gateway reads. *)
Definition route (url : string) : option (string * string) :=
  if decide (url = TRANSLATOR_URL +:+ "/transform")
  then Some ("transform", "transformed_data")
  else if decide (url = LEDGER_URL +:+ "/sign")
  then Some ("sign", "signature")
  else if decide (url = LEDGER_URL +:+ "/ledger/append")
  then Some ("commit_ledger", "entry_id")
  else None.

(** What a call means for the run of the pipeline: it completed a step
    (the route serves a step, the answer has status 200 and holds the field
    read), it failed (the call raised, or a 200 answer does not hold the
    field read, which raises when the gateway reads it), or neither. *)
Inductive Verdict :=
  | Done (step : string)
  | Failed (error : string)
  | Neither.

Definition verdict (o : Obs) : Verdict :=
  match o with
  | ObsPost url _ (Raised e) => Failed e
  | ObsPost url _ (Responded status_code body) =>
      match route url with
      | Some (step, field) =>
          if status_code =? 200
          then match subscript body field with
               | inr _ => Done step
               | inl e => Failed e
               end
          else Neither
      | None => Neither
      end
  | ObsUuid4 _ | ObsTime _ => Neither
  end.

Definition step_done (o : Obs) : option string :=
  match verdict o with Done step => Some step | _ => None end.

(** The steps that the calls of a run completed, in order. *)
Definition completed_steps (tr : list Obs) : list string := omap step_done tr.

(** The call was answered, with an error status or with something the
    gateway can read. *)
Definition answered (o : Obs) : Prop := ∀ e, verdict o ≠ Failed e.

(** What the caller of [send_message] is told about the entry of a run
    that ended in state [status]. *)
Definition summary (entry : MessageEntry.t) (id : Json) : Result Summary.t :=
  Ok {| Summary.message_id := MessageEntry.id entry;
        Summary.status := MessageEntry.status entry;
        Summary.hash := MessageEntry.hash entry;
        Summary.steps := MessageEntry.steps entry;
        Summary.ledger_entry_id := id |}.

(** The run of the pipeline so far is on track: the steps recorded in the
    entry are the steps that the calls completed, each recorded as
    completed, every call was answered, and no failure is recorded. *)
Definition on_track (tr : list Obs) (l : Locals) : Prop :=
  Step.step <$> MessageEntry.steps (message_entry l) = completed_steps tr
  ∧ Forall (λ s, Step.status s = "completed")
           (MessageEntry.steps (message_entry l))
  ∧ Forall answered tr
  ∧ MessageEntry.error (message_entry l) = None
  ∧ MessageEntry.failed_at (message_entry l) = None.

(** The run of the pipeline was on track until its last call, which failed
    with [e]; when that call is the append to the ledger,
    [ledger_entry_id] is bound to [None]. *)
Definition derailed (tr : list Obs) (l : Locals) (e : string) : Prop :=
  ∃ tr0 url json outcome,
    tr = tr0 ++ [ObsPost url json outcome]
    ∧ on_track tr0 l
    ∧ verdict (ObsPost url json outcome) = Failed e
    ∧ (url = LEDGER_URL +:+ "/ledger/append" →
       ledger_entry_id l = Some JNull).

(** The identifier and the hash of the entry being built. *)
Definition anchor (l : Locals) : string * string :=
  (MessageEntry.id (message_entry l), MessageEntry.hash (message_entry l)).

(** What a part of the pipeline guarantees: started on track, it ends on
    track with a result in [R], or derailed; the entry keeps its identifier
    and its hash. *)
Definition keeps_track {A} (m : Try A) (R : list Obs → A → Locals → Prop)
    : Prop :=
  ∀ pre l,
    on_track pre l →
    wp (m l) (λ tr r,
      anchor r.1 = anchor l
      ∧ match r.2 with
        | inr a => on_track (pre ++ tr) r.1 ∧ R (pre ++ tr) a r.1
        | inl e => derailed (pre ++ tr) r.1 e
        end).

(** The entry of a run that went through: it is completed, and it holds
    the untransformed data if no transform step completed, no signature if
    no sign step completed, no ledger entry if no commit step completed. *)
Definition went_through (data : gmap string Json) (tr : list Obs) (l : Locals)
    : Prop :=
  MessageEntry.status (message_entry l) = "completed"
  ∧ ∃ transformed_data signature id,
      MessageEntry.transformed_data (message_entry l) = Some transformed_data
      ∧ MessageEntry.signature (message_entry l) = Some signature
      ∧ MessageEntry.ledger_entry_id (message_entry l) = Some id
      ∧ ledger_entry_id l = Some id
      ∧ ("transform" ∉ completed_steps tr → transformed_data = JObj data)
      ∧ ("sign" ∉ completed_steps tr → signature = JNull)
      ∧ ("commit_ledger" ∉ completed_steps tr → id = JNull).



(** An entry of the message history whose run has ended. *)
Definition terminal (m : MessageEntry.t) : Prop :=
  MessageEntry.status m = "completed" ∨ MessageEntry.status m = "failed".

(** The routes that the calls of a run went to, in order. *)
Definition urls (tr : list Obs) : list string :=
  omap (λ o, match o with ObsPost url _ _ => Some url | _ => None end) tr.

(** The calls of a part of the pipeline go to routes of [allowed], in that
    order, each at most once. *)
Definition calls_within {A} (m : Try A) (allowed : list string) : Prop :=
  ∀ l, wp (m l) (λ tr _, urls tr `sublist_of` allowed).

(** The messages that involve a node. *)
Definition involving (node_id : string) (messages : list MessageEntry.t)
    : list MessageEntry.t :=
  List.filter (λ m, bool_decide (MessageEntry.from_node m = node_id)
                    || bool_decide (MessageEntry.to_node m = node_id))
              messages.

(** The routes that a submission may call, in the order of the pipeline: the
    transform route when a target schema and a source schema are given, the
    sign route when the sender's record holds a private key, the append
    route when a commit is requested, and the telemetry route. *)
Definition planned (route_request : RouteRequest.t) (st : State) : list string :=
  let message := RouteRequest.message route_request in
  (if truthy (RouteRequest.transform_schema route_request)
      && truthy (Message.schema message)
   then [TRANSLATOR_URL +:+ "/transform"] else [])
  ++ (if match registered_nodes st !! Message.from_node message with
         | Some sender => py_truthy (Node.private_key sender)
         | None => false
         end
      then [LEDGER_URL +:+ "/sign"] else [])
  ++ (if RouteRequest.commit_to_ledger route_request
      then [LEDGER_URL +:+ "/ledger/append"] else [])
  ++ [TRANSLATOR_URL +:+ "/telemetry"].

End GatewayVocabulary.

Section SubmissionVocabulary.
Context `{!JsonLib}.
Import Gateway.

(** The request to sign [transformed_data] in the sender's name. *)
Definition sign_request (route_request : RouteRequest.t)
    (transformed_data : Json) : Json :=
  obj [("data", JStr (dumps_sorted transformed_data));
       ("node_id",
        JStr (Message.from_node (RouteRequest.message route_request)))].

(** The record of a message that is committed: [transformed_data] beside
    the id, the nodes, the type and the hash of the message. *)
Definition ledger_record (route_request : RouteRequest.t)
    (message_id message_hash : string) (transformed_data : Json) : Json :=
  let message := RouteRequest.message route_request in
  obj [("message_id", JStr message_id);
       ("from_node", JStr (Message.from_node message));
       ("to_node", JStr (Message.to_node message));
       ("message_type", JStr (Message.message_type message));
       ("hash", JStr message_hash);
       ("transformed_data", transformed_data)].

(** The request to append [data] in the sender's name with [signature]. *)
Definition append_request (route_request : RouteRequest.t)
    (data : string) (signature : Json) : Json :=
  obj [("data", JStr data);
       ("node_id",
        JStr (Message.from_node (RouteRequest.message route_request)));
       ("signature", signature)].

(** [signature] is [None], or it is the signature in the answer that the
    request to sign [transformed_data] got in [tr]. *)
Definition signature_from (tr : list Obs) (route_request : RouteRequest.t)
    (transformed_data signature : Json) : Prop :=
  signature = JNull
  ∨ ∃ body,
      ObsPost (LEDGER_URL +:+ "/sign")
              (sign_request route_request transformed_data)
              (Responded 200 body) ∈ tr
      ∧ subscript body "signature" = inr signature.

(** No call of [tr] goes to the route [url]. *)
Definition no_post (url : string) (tr : list Obs) : Prop :=
  ∀ body outcome, ObsPost url body outcome ∉ tr.

(** Every call of [tr] to the sign route is the request to sign
    [transformed_data] in the sender's name. *)
Definition signs_only (tr : list Obs) (route_request : RouteRequest.t)
    (transformed_data : Json) : Prop :=
  ∀ request answer,
    ObsPost (LEDGER_URL +:+ "/sign") request answer ∈ tr →
    request = sign_request route_request transformed_data.

End SubmissionVocabulary.

(** A fact of [json.dumps] that tells the text of a record from the text of
    one of its fields: the text of an object holds the text of each of its
    values between its braces, so it is the longer of the two. *)
Class JsonLaws `{JsonLib} : Prop := {
  dumps_sorted_longer (m : gmap string Json) (k : string) (v : Json) :
    m !! k = Some v →
    (String.length (dumps_sorted v)
     < String.length (dumps_sorted (JObj m)))%nat;
}.


(** * Properties *)

(** ** The ledger store *)

Section LedgerProperties.
Context `{!Base64, !Ed25519, !Hashlib}.
Import Ledger.

Lemma append_to_ledger_eq env entry st :
  append_to_ledger env entry st =
  ({| ledger_entries := ledger_entries st ++ [new_entry env entry st];
      node_keys := node_keys st |},
   Ok {| Appended.entry_id := uuid4 env;
         Appended.block_height := Z.of_nat (length (ledger_entries st));
         Appended.verified := append_verified entry st;
         Appended.data_hash :=
           sha256_hexdigest (encode (LedgerEntry.data entry)) |}).
Proof. reflexivity. Qed.

Lemma register_node_entries env registration st :
  ledger_entries (register_node env registration st).1 = ledger_entries st.
Proof.
  unfold register_node.
  destruct (truthy _); [|done].
  by destruct (_ ≫= load_public_key).
Qed.

(** What a handler call does to [ledger_entries]: an append adds one entry
    at the end, every other route leaves the list as it is. *)
Lemma handle_entries env req st :
  ledger_entries (handle env req st).1 =
  match req with
  | PostAppend entry => ledger_entries st ++ [new_entry env entry st]
  | _ => ledger_entries st
  end.
Proof.
  destruct req; try reflexivity.
  cbn [handle].
  pose proof (register_node_entries env registration st) as E.
  by destruct (register_node env registration st).
Qed.

Lemma run_snoc calls env req st :
  run (calls ++ [(env, req)]) st = (handle env req (run calls st)).1.
Proof. unfold run. by rewrite foldl_app. Qed.

Lemma appends_snoc calls call :
  appends (calls ++ [call]) =
  (if is_append call then S (appends calls) else appends calls).
Proof.
  unfold appends. rewrite List.filter_app, length_app. cbn.
  destruct (is_append call); cbn; lia.
Qed.

(** The heights stored after a run are 0, 1, ..., one per append. *)
Lemma run_heights calls :
  Stored.block_height <$> ledger_entries (run calls initial)
  = Z.of_nat <$> seq 0 (appends calls).
Proof.
  induction calls as [|[env req] calls IH] using rev_ind; [done|].
  rewrite run_snoc, handle_entries, appends_snoc.
  assert (length (ledger_entries (run calls initial)) = appends calls) as L.
  { apply (f_equal length) in IH. by rewrite !length_fmap, length_seq in IH. }
  destruct req; cbn [is_append snd]; try exact IH.
  rewrite fmap_app, IH, seq_S, fmap_app. cbn. by rewrite L.
Qed.

Lemma ledger_heights_count calls :
  length (ledger_entries (run calls initial)) = appends calls
  ∧ Stored.block_height <$> ledger_entries (run calls initial)
    = Z.of_nat <$> seq 0 (appends calls).
Proof.
  pose proof (run_heights calls) as Hh. split; [|done].
  apply (f_equal length) in Hh. by rewrite !length_fmap, length_seq in Hh.
Qed.

(** C1. Whatever calls the ledger has served, it holds one entry per append
    and their block heights are 0, 1, ..., N-1 in storage order; the next
    append is answered with height N; and after any further call, of any
    route, the entries stored before are still there, unchanged and at the
    same positions, as a prefix of the list. *)
Theorem ledger_heights_gapless_append_only (calls : list (Env * Request)) :
  let st := run calls initial in
  let N := appends calls in
  length (ledger_entries st) = N
  ∧ Stored.block_height <$> ledger_entries st = Z.of_nat <$> seq 0 N
  ∧ (∀ env entry,
       ∃ stored,
         append_to_ledger env entry st
         = ({| ledger_entries := ledger_entries st ++ [stored];
               node_keys := node_keys st |},
            Ok {| Appended.entry_id := Stored.id stored;
                  Appended.block_height := Z.of_nat N;
                  Appended.verified := Stored.verified stored;
                  Appended.data_hash := Stored.data_hash stored |})
         ∧ Stored.block_height stored = Z.of_nat N)
  ∧ (∀ env req,
       ledger_entries st `prefix_of` ledger_entries (handle env req st).1).
Proof.
  intros st N.
  pose proof (run_heights calls) as Hh. fold st N in Hh.
  assert (length (ledger_entries st) = N) as L.
  { apply (f_equal length) in Hh. by rewrite !length_fmap, length_seq in Hh. }
  split_and!; [done|done| |].
  - intros env entry. exists (new_entry env entry st).
    rewrite append_to_ledger_eq. cbn. by rewrite L.
  - intros env req. rewrite handle_entries.
    destruct req; try reflexivity. by apply prefix_app_r.
Qed.


(** A call for another node, or of another route, leaves an unregistered
    node unregistered. *)
Lemma register_node_keys_other env registration st node_id :
  NodeRegistration.node_id registration ≠ node_id →
  node_keys (register_node env registration st).1 !! node_id
  = node_keys st !! node_id.
Proof.
  intros Hne. unfold register_node.
  destruct (truthy _); [destruct (_ ≫= load_public_key)|]; cbn;
    by rewrite ?lookup_insert_ne.
Qed.

Lemma handle_keys_other env req st node_id :
  ¬ registers node_id (env, req) →
  node_keys (handle env req st).1 !! node_id = node_keys st !! node_id.
Proof.
  intros Hn. destruct req; try reflexivity.
  cbn [handle].
  pose proof (register_node_keys_other env registration st node_id) as E.
  destruct (register_node env registration st). apply E.
  intros Heq. by apply Hn.
Qed.

Lemma run_never_registered calls node_id :
  Forall (λ call, ¬ registers node_id call) calls →
  node_keys (run calls initial) !! node_id = None.
Proof.
  induction calls as [|[env req] calls IH] using rev_ind; intros Hall; [done|].
  apply Forall_app in Hall as [Hall Hlast].
  rewrite run_snoc, handle_keys_other; [by apply IH|].
  by inversion Hlast.
Qed.

(** C10. For a node that no call has ever registered, an append returns
    normally and stores the entry, with [verified = false], with or without
    a signature: the ledger holds one more entry, which has the data, the
    node id and the signature of the request, the hash of that data, the
    identifier and the time drawn for the call, and the next block height;
    the response reports that entry.  [sign_data] and [verify_signature]
    answer 404 for the same node. *)
Theorem append_unknown_node_succeeds_unverified
    (calls : list (Env * Request)) (env : Env) (entry : LedgerEntry.t) :
  Forall (λ call, ¬ registers (LedgerEntry.node_id entry) call) calls →
  let st := run calls initial in
  ∃ stored,
    append_to_ledger env entry st
    = ({| ledger_entries := ledger_entries st ++ [stored];
          node_keys := node_keys st |},
       Ok {| Appended.entry_id := Stored.id stored;
             Appended.block_height := Stored.block_height stored;
             Appended.verified := false;
             Appended.data_hash := Stored.data_hash stored |})
    ∧ Stored.verified stored = false
    ∧ Stored.node_id stored = LedgerEntry.node_id entry
    ∧ Stored.signature stored = LedgerEntry.signature entry
    ∧ Stored.id stored = uuid4 env
    ∧ Stored.data stored = LedgerEntry.data entry
    ∧ Stored.data_hash stored
      = sha256_hexdigest (encode (LedgerEntry.data entry))
    ∧ Stored.timestamp stored = time env
    ∧ Stored.block_height stored = Z.of_nat (length (ledger_entries st))
    ∧ length (ledger_entries st) = appends calls
    ∧ (∀ data,
         sign_data {| SignRequest.data := data;
                      SignRequest.node_id := LedgerEntry.node_id entry |} st
         = HTTPException 404 "Node not registered")
    ∧ (∀ data signature,
         verify_signature data signature (LedgerEntry.node_id entry) st
         = HTTPException 404 "Node not registered").
Proof.
  intros Hnever st.
  pose proof (run_never_registered calls _ Hnever) as Hk. fold st in Hk.
  assert (append_verified entry st = false) as Hv.
  { unfold append_verified. rewrite Hk. by destruct (truthy _). }
  destruct (ledger_heights_count calls) as [L _]. fold st in L.
  exists (new_entry env entry st). rewrite append_to_ledger_eq.
  unfold new_entry. cbn. rewrite Hv.
  split_and!; try done.
  - intros data. unfold sign_data. cbn. by rewrite Hk.
  - intros data signature. unfold verify_signature. by rewrite Hk.
Qed.

(** Every key pair the ledger holds with a private half was generated by a
    registration: the stored public key is the public half of that key. *)
Lemma register_node_custody env registration st :
  map_Forall (λ _, in_custody) (node_keys st) →
  map_Forall (λ _, in_custody) (node_keys (register_node env registration st).1).
Proof.
  intros Hst. unfold register_node.
  destruct (truthy _); [destruct (_ ≫= load_public_key)|]; cbn; try done;
    apply map_Forall_insert_2; try done.
  intros p Hp. cbn in Hp. injection Hp as <-. by exists (generate env).
Qed.

Lemma handle_custody env req st :
  map_Forall (λ _, in_custody) (node_keys st) →
  map_Forall (λ _, in_custody) (node_keys (handle env req st).1).
Proof.
  intros Hst. destruct req; try done.
  cbn [handle].
  pose proof (register_node_custody env registration st Hst) as E.
  by destruct (register_node env registration st).
Qed.

Lemma run_custody calls :
  map_Forall (λ _, in_custody) (node_keys (run calls initial)).
Proof.
  induction calls as [|[env req] calls IH] using rev_ind.
  - apply map_Forall_empty.
  - rewrite run_snoc. by apply handle_custody.
Qed.

Section RoundTrip.
Context `{!LibraryLaws}.

Lemma truthy_b64encode b : b ≠ [] → truthy (Some (b64encode b)) = true.
Proof.
  intros Hb. cbn. apply negb_true_iff, bool_decide_eq_false.
  by apply b64encode_nonempty.
Qed.

Lemma load_private_key_encoded sk :
  load_private_key (b64encode (private_bytes sk)) = Some sk.
Proof.
  unfold load_private_key. rewrite b64decode_b64encode. cbn.
  apply from_private_bytes_private_bytes.
Qed.

Lemma load_public_key_encoded pk :
  load_public_key (b64encode (public_bytes pk)) = Some pk.
Proof.
  unfold load_public_key. rewrite b64decode_b64encode. cbn.
  apply from_public_bytes_public_bytes.
Qed.


End RoundTrip.

(** After a registration, what [sign_data], [verify_signature] and the
    [verified] flag of an append say for the node depends on the pair just
    stored and on nothing the ledger held before. *)
Lemma sign_data_insert request key_info st entries :
  sign_data request
    {| ledger_entries := entries;
       node_keys := <[SignRequest.node_id request := key_info]> (node_keys st) |}
  = sign_data request (only (SignRequest.node_id request) key_info).
Proof. unfold sign_data, only. cbn. by rewrite lookup_insert_eq, lookup_singleton_eq. Qed.

Lemma verify_signature_insert data signature node_id key_info st entries :
  verify_signature data signature node_id
    {| ledger_entries := entries;
       node_keys := <[node_id := key_info]> (node_keys st) |}
  = verify_signature data signature node_id (only node_id key_info).
Proof.
  unfold verify_signature, only. cbn.
  by rewrite lookup_insert_eq, lookup_singleton_eq.
Qed.

Lemma append_verified_insert entry key_info st entries :
  append_verified entry
    {| ledger_entries := entries;
       node_keys := <[LedgerEntry.node_id entry := key_info]> (node_keys st) |}
  = append_verified entry (only (LedgerEntry.node_id entry) key_info).
Proof.
  unfold append_verified, only. cbn.
  by rewrite lookup_insert_eq, lookup_singleton_eq.
Qed.

(** C9 (amended). Registering a node id that is already registered fails
    only as a first registration would: with status 400, and the stored pair
    left as it was, when a public key is supplied that does not decode.
    Otherwise the call returns normally and the pair stored for the node id
    is replaced, by the supplied public key with no private key, or by a
    freshly generated pair; from then on [sign_data], [verify_signature] and
    the [verified] flag of an append answer for that node id as a ledger
    would that holds the new pair alone. *)
Theorem reregistration_replaces_key_pair
    (env : Env) (registration : NodeRegistration.t) (st : State) :
  let node_id := NodeRegistration.node_id registration in
  let supplied := NodeRegistration.public_key registration in
  is_Some (node_keys st !! node_id) →
  (truthy supplied = true → supplied ≫= load_public_key = None →
   register_node env registration st
   = (st, HTTPException 400 "Invalid public key"))
  ∧ (∀ key_info,
       (truthy supplied = false
        ∧ key_info
          = {| KeyInfo.public_key :=
                 b64encode (public_bytes (public_key (generate env)));
               KeyInfo.private_key :=
                 Some (b64encode (private_bytes (generate env)));
               KeyInfo.registered_at := time env |})
       ∨ (∃ pk, truthy supplied = true
                ∧ supplied ≫= load_public_key = Some pk
                ∧ key_info
                  = {| KeyInfo.public_key := b64encode (public_bytes pk);
                       KeyInfo.private_key := None;
                       KeyInfo.registered_at := time env |}) →
       let st' := {| ledger_entries := ledger_entries st;
                     node_keys := <[node_id := key_info]> (node_keys st) |} in
       register_node env registration st
       = (st', Ok {| Registered.node_id := node_id;
                     Registered.public_key := KeyInfo.public_key key_info;
                     Registered.private_key := KeyInfo.private_key key_info;
                     Registered.status := "registered" |})
       ∧ node_keys st' !! node_id = Some key_info
       ∧ (∀ data,
            sign_data {| SignRequest.data := data;
                         SignRequest.node_id := node_id |} st'
            = sign_data {| SignRequest.data := data;
                           SignRequest.node_id := node_id |}
                        (only node_id key_info))
       ∧ (∀ data signature,
            verify_signature data signature node_id st'
            = verify_signature data signature node_id (only node_id key_info))
       ∧ (∀ data signature,
            append_verified {| LedgerEntry.data := data;
                               LedgerEntry.node_id := node_id;
                               LedgerEntry.signature := signature |} st'
            = append_verified {| LedgerEntry.data := data;
                                 LedgerEntry.node_id := node_id;
                                 LedgerEntry.signature := signature |}
                              (only node_id key_info))).
Proof.
  intros node_id supplied _. split.
  - intros Ht Hd. unfold register_node. fold supplied. by rewrite Ht, Hd.
  - intros key_info Hcase st'. split_and!.
    + unfold register_node. fold supplied node_id.
      destruct Hcase as [[-> ->]|(pk & -> & -> & ->)]; reflexivity.
    + apply lookup_insert_eq.
    + intros data.
      exact (sign_data_insert
               {| SignRequest.data := data; SignRequest.node_id := node_id |}
               key_info st _).
    + intros data signature. apply verify_signature_insert.
    + intros data signature.
      exact (append_verified_insert
               {| LedgerEntry.data := data; LedgerEntry.node_id := node_id;
                  LedgerEntry.signature := signature |} key_info st _).
Qed.

End LedgerProperties.

(** ** The schema transformer *)

Section TranslatorProperties.
Context `{!JsonLib}.
Import Translator.






Lemma copy_field_none data rules :
  foldl (copy_field data) None rules = None.
Proof. by induction rules. Qed.

(** The copy loop stops at the first rule whose source cannot be hashed. *)
Lemma copy_loop_unhashable data rules : ∀ acc,
  Exists (λ rule, ¬ hashable rule.2) rules →
  foldl (copy_field data) acc rules = None.
Proof.
  induction rules as [|[t s] rules IH]; intros acc Hex.
  - by apply Exists_nil in Hex.
  - apply Exists_cons in Hex as [Hbad|Hex]; [|by apply IH].
    cbn [foldl]. destruct acc as [acc|]; [|apply copy_field_none].
    destruct s; cbn in Hbad; try (by destruct Hbad); apply copy_field_none.
Qed.





End TranslatorProperties.

(** ** The gateway *)

Section GatewayProperties.
Context `{!Hashlib, !JsonLib}.
Import Gateway.

(** A run is one way for the environment to answer. *)
Lemma wp_exec {W A} (h : Handler W) (p : Prog A) : ∀ Q w,
  wp p Q → Q (exec h p w).1.1 (exec h p w).2.
Proof.
  induction p as [a|X e k IH]; intros Q w Hwp; [done|].
  cbn [exec]. destruct (answer h e w) as [w1 x].
  specialize (IH x _ w1 (Hwp x)).
  by destruct (exec h (k x) w1) as [[tr w2] a].
Qed.

Lemma wp_mono {A} (p : Prog A) : ∀ (Q Q' : list Obs → A → Prop),
  (∀ tr a, Q tr a → Q' tr a) → wp p Q → wp p Q'.
Proof.
  induction p as [a|X e k IH]; intros Q Q' HQ; cbn [wp]; [by apply HQ|].
  intros Hwp x. eapply IH; [|apply Hwp]. intros tr a. apply HQ.
Qed.

Lemma wp_bind {A B} (m : Prog A) (f : A → Prog B) : ∀ Q,
  wp m (λ tr1 a, wp (f a) (λ tr2, Q (tr1 ++ tr2))) → wp (bind m f) Q.
Proof.
  induction m as [a|X e k IH]; intros Q; cbn [wp bind]; [done|].
  intros Hwp x. apply IH. apply Hwp.
Qed.

(** With the sender or the receiver unregistered, [send_message] is a
    program without calls. *)
Lemma send_message_unregistered route_request st :
  let message := RouteRequest.message route_request in
  registered_nodes st !! Message.from_node message = None
  ∨ registered_nodes st !! Message.to_node message = None →
  ∃ detail, send_message route_request st = Ret (st, HTTPException 404 detail).
Proof.
  intros message Hno. unfold send_message. fold message.
  destruct (registered_nodes st !! Message.from_node message) as [sender|] eqn:Ef.
  - destruct Hno as [?|Hto]; [done|]. rewrite Hto.
    rewrite bool_decide_eq_false_2 by done.
    rewrite bool_decide_eq_true_2 by done. eauto.
  - rewrite bool_decide_eq_true_2 by done. eauto.
Qed.

(** C6. When the sender or the receiver of a submitted message is not a
    registered node, [send_message] is the program that answers 404 at once:
    it makes no call (no identifier is drawn, no clock read, no service
    contacted, so no step of the pipeline runs), builds no message entry and
    returns the state it was given, so in every run the message history and
    every other store are unchanged. *)
Theorem unregistered_node_is_rejected
    (route_request : RouteRequest.t) (st : State) :
  let message := RouteRequest.message route_request in
  registered_nodes st !! Message.from_node message = None
  ∨ registered_nodes st !! Message.to_node message = None →
  ∃ detail,
    send_message route_request st = Ret (st, HTTPException 404 detail)
    ∧ ∀ W (h : Handler W) (w : W),
        exec h (send_message route_request st) w
        = ([], w, (st, HTTPException 404 detail)).
Proof.
  intros message Hno.
  destruct (send_message_unregistered route_request st Hno) as [detail Hprog].
  exists detail. split; [exact Hprog|].
  intros W h w. by rewrite Hprog.
Qed.

Lemma route_transform :
  route (TRANSLATOR_URL +:+ "/transform") = Some ("transform", "transformed_data").
Proof. reflexivity. Qed.

Lemma route_sign : route (LEDGER_URL +:+ "/sign") = Some ("sign", "signature").
Proof. reflexivity. Qed.

Lemma route_append :
  route (LEDGER_URL +:+ "/ledger/append") = Some ("commit_ledger", "entry_id").
Proof. reflexivity. Qed.

Lemma route_telemetry : route (TRANSLATOR_URL +:+ "/telemetry") = None.
Proof. reflexivity. Qed.

Lemma wp_try_bind {A B} (m : Try A) (f : A → Try B) l Q :
  wp (m l) (λ tr1 r,
    match r.2 with
    | inl e => Q tr1 (r.1, inl e)
    | inr a => wp (f a r.1) (λ tr2, Q (tr1 ++ tr2))
    end) →
  wp (try_bind m f l) Q.
Proof.
  intros Hm. unfold try_bind. apply wp_bind.
  eapply wp_mono; [|exact Hm].
  intros tr [l' [e|a]]; cbn; [|done]. by rewrite app_nil_r.
Qed.

(** *** What a call means *)

Lemma verdict_done url step field json status_code body v :
  route url = Some (step, field) →
  (status_code =? 200) = true →
  subscript body field = inr v →
  verdict (ObsPost url json (Responded status_code body)) = Done step.
Proof. intros Hr Hc Hv. cbn. by rewrite Hr, Hc, Hv. Qed.

Lemma verdict_garbled url step field json status_code body e :
  route url = Some (step, field) →
  (status_code =? 200) = true →
  subscript body field = inl e →
  verdict (ObsPost url json (Responded status_code body)) = Failed e.
Proof. intros Hr Hc Hv. cbn. by rewrite Hr, Hc, Hv. Qed.

Lemma verdict_skipped url step field json status_code body :
  route url = Some (step, field) →
  (status_code =? 200) = false →
  verdict (ObsPost url json (Responded status_code body)) = Neither.
Proof. intros Hr Hc. cbn. by rewrite Hr, Hc. Qed.

Lemma completed_steps_app tr1 tr2 :
  completed_steps (tr1 ++ tr2) = completed_steps tr1 ++ completed_steps tr2.
Proof. apply omap_app. Qed.

Lemma completed_steps_neither o :
  verdict o = Neither → completed_steps [o] = [].
Proof. intros Ho. unfold completed_steps, step_done. cbn. by rewrite Ho. Qed.

Lemma completed_steps_failed o e :
  verdict o = Failed e → completed_steps [o] = [].
Proof. intros Ho. unfold completed_steps, step_done. cbn. by rewrite Ho. Qed.

Lemma completed_steps_done o step :
  verdict o = Done step → completed_steps [o] = [step].
Proof. intros Ho. unfold completed_steps, step_done. cbn. by rewrite Ho. Qed.

Lemma answered_neither o : verdict o = Neither → answered o.
Proof. intros Ho e. by rewrite Ho. Qed.

Lemma answered_done o step : verdict o = Done step → answered o.
Proof. intros Ho e. by rewrite Ho. Qed.

(** *** Staying on track *)

Lemma on_track_neither tr l o :
  on_track tr l → verdict o = Neither → on_track (tr ++ [o]) l.
Proof.
  intros (Hsteps & Hdone & Hans & He & Hf) Ho. split_and!; try done.
  - by rewrite completed_steps_app, (completed_steps_neither o), app_nil_r.
  - apply Forall_app. split; [done|]. apply Forall_singleton.
    by apply answered_neither.
Qed.

Lemma on_track_bound tr l v :
  on_track tr l →
  on_track tr {| message_entry := message_entry l; ledger_entry_id := Some v |}.
Proof. done. Qed.

(** A call that completes a step, the reading of the clock, and the step
    recorded. *)
Lemma on_track_step tr l o step now id :
  on_track tr l → verdict o = Done step →
  wp (record_step (completed_step step now id) l) (λ tr' r,
    tr' = [] ∧ r.2 = inr ()
    ∧ ledger_entry_id r.1 = ledger_entry_id l
    ∧ anchor r.1 = anchor l
    ∧ on_track (tr ++ [o; ObsTime now]) r.1).
Proof.
  intros (Hsteps & Hdone & Hans & He & Hf) Ho.
  unfold record_step, on_track.
  cbn [wp fst snd message_entry ledger_entry_id MessageEntry.steps
       MessageEntry.error MessageEntry.failed_at].
  split_and!; try done.
  - rewrite fmap_app, Hsteps. cbn [fmap list_fmap completed_step Step.step].
    change [o; ObsTime now] with ([o] ++ [ObsTime now]).
    rewrite !completed_steps_app, (completed_steps_done o step) by done.
    by rewrite (completed_steps_neither (ObsTime now)), app_nil_r.
  - apply Forall_app. split; [done|]. by apply Forall_singleton.
  - apply Forall_app. split; [done|].
    apply Forall_cons. split; [by eapply answered_done|].
    by apply Forall_singleton, answered_neither.
Qed.

Lemma derailed_here tr l url json outcome e :
  on_track tr l →
  verdict (ObsPost url json outcome) = Failed e →
  (url = LEDGER_URL +:+ "/ledger/append" → ledger_entry_id l = Some JNull) →
  derailed (tr ++ [ObsPost url json outcome]) l e.
Proof. intros. by exists tr, url, json, outcome. Qed.

Lemma step_in_completed tr o tr' step :
  verdict o = Done step → step ∈ completed_steps (tr ++ o :: tr').
Proof.
  intros Ho. change (o :: tr') with ([o] ++ tr').
  rewrite !completed_steps_app, (completed_steps_done o step) by done.
  set_solver.
Qed.

Lemma not_in_completed_prefix step tr1 tr2 :
  step ∉ completed_steps (tr1 ++ tr2) → step ∉ completed_steps tr1.
Proof. rewrite completed_steps_app. set_solver. Qed.

(** Sequencing: after a part that keeps track, the rest runs from a state
    on track, or the failure goes through. *)
Lemma track_bind {A B} (m : Try A) (f : A → Try B) R
    (Q : list Obs → Locals * (string + B) → Prop) pre l :
  keeps_track m R →
  on_track pre l →
  (∀ a tr1 l1,
     on_track (pre ++ tr1) l1 → R (pre ++ tr1) a l1 → anchor l1 = anchor l →
     wp (f a l1) (λ tr2, Q (tr1 ++ tr2))) →
  (∀ tr1 l1 e,
     derailed (pre ++ tr1) l1 e → anchor l1 = anchor l → Q tr1 (l1, inl e)) →
  wp (try_bind m f l) Q.
Proof.
  intros Hm Hl Hf He. apply wp_try_bind.
  eapply wp_mono; [|apply Hm, Hl].
  intros tr1 [l1 [e|a]]; cbn [fst snd].
  - intros [Ha Hd]. by apply He.
  - intros (Ha & Ht & HR). by apply Hf.
Qed.

(** *** The four steps *)

Ltac enter :=
  unfold mbind, mret, Try_bind, Try_ret;
  repeat first
    [ apply wp_try_bind
    | progress cbn [wp post lift time_now raise try_ret bind_ledger_entry_id
                    fst snd app] ].

(** A call that completed a step: the clock is read and the step recorded. *)
Ltac record o :=
  intros ?now; enter;
  eapply wp_mono;
  [|eapply (on_track_step _ _ o);
    [eassumption|eapply verdict_done; try eassumption; reflexivity]];
  intros ? [? ?] (-> & Hr & Hid & Hanchor & Htrack); cbn [fst snd] in *; subst;
  enter; rewrite <- ?app_assoc; cbn [app];
  split; [assumption|split; [assumption|]].

Ltac was_done :=
  intros Hn; destruct Hn;
  eapply step_in_completed, verdict_done; try eassumption; reflexivity.

Lemma step_transform_keeps_track route_request :
  keeps_track (step_transform route_request)
    (λ tr transformed_data _,
       "transform" ∉ completed_steps tr →
       transformed_data
       = JObj (Message.data (RouteRequest.message route_request))).
Proof.
  intros pre l Hl. unfold step_transform.
  destruct (truthy _ && truthy _).
  2:{ enter. by rewrite app_nil_r. }
  enter. intros [e|status_code body]; enter.
  - split; [done|]. apply derailed_here; [done|done|intros [=]].
  - destruct (status_code =? 200) eqn:Hc; enter.
    + destruct (subscript body "transformed_data") as [e|v] eqn:Hv; enter.
      * split; [done|]. apply derailed_here; [done| |intros [=]].
        by eapply verdict_garbled.
      * match goal with |- context [observe ?e ?x] => record (observe e x) end.
        was_done.
    + split_and!; [done| |done]. apply on_track_neither; [done|].
      by eapply verdict_skipped.
Qed.

Lemma step_sign_keeps_track route_request st transformed_data :
  is_Some (registered_nodes st
             !! Message.from_node (RouteRequest.message route_request)) →
  keeps_track (step_sign route_request st transformed_data)
    (λ tr signature _, "sign" ∉ completed_steps tr → signature = JNull).
Proof.
  intros [sender Hs] pre l Hl. unfold step_sign. rewrite Hs.
  destruct (py_truthy _).
  2:{ enter. by rewrite app_nil_r. }
  enter. intros [e|status_code body]; enter.
  - split; [done|]. apply derailed_here; [done|done|intros [=]].
  - destruct (status_code =? 200) eqn:Hc; enter.
    + destruct (subscript body "signature") as [e|v] eqn:Hv; enter.
      * split; [done|]. apply derailed_here; [done| |intros [=]].
        by eapply verdict_garbled.
      * match goal with |- context [observe ?e ?x] => record (observe e x) end.
        was_done.
    + split_and!; [done| |done]. apply on_track_neither; [done|].
      by eapply verdict_skipped.
Qed.

Lemma step_commit_keeps_track route_request message_id message_hash
    transformed_data signature :
  keeps_track (step_commit route_request message_id message_hash
                           transformed_data signature)
    (λ tr id l,
       ledger_entry_id l = Some id
       ∧ ("commit_ledger" ∉ completed_steps tr → id = JNull)).
Proof.
  intros pre l Hl. unfold step_commit. enter.
  apply (on_track_bound _ _ JNull) in Hl.
  destruct (RouteRequest.commit_to_ledger route_request).
  2:{ enter. by rewrite app_nil_r. }
  enter. intros [e|status_code body]; enter.
  - split; [done|]. by apply derailed_here.
  - destruct (status_code =? 200) eqn:Hc; enter.
    + destruct (subscript body "entry_id") as [e|v] eqn:Hv; enter.
      * split; [done|]. apply derailed_here; [done| |done].
        by eapply verdict_garbled.
      * apply (on_track_bound _ _ v) in Hl.
        match goal with |- context [observe ?e ?x] => record (observe e x) end.
        split; [done|]. was_done.
    + split_and!; [done| |done|done]. apply on_track_neither; [done|].
      by eapply verdict_skipped.
Qed.

(** The end of the pipeline: the telemetry call, whose answer is not looked
    at, and the completion of the entry. *)
Lemma notify_complete_keeps_track route_request message_id message_hash
    transformed_data signature id pre l :
  on_track pre l →
  wp (try_bind (step_notify route_request message_id message_hash)
               (λ _, complete transformed_data signature id) l)
     (λ tr r,
        anchor r.1 = anchor l
        ∧ ledger_entry_id r.1 = ledger_entry_id l
        ∧ match r.2 with
          | inr _ =>
              on_track (pre ++ tr) r.1
              ∧ MessageEntry.status (message_entry r.1) = "completed"
              ∧ MessageEntry.transformed_data (message_entry r.1)
                = Some transformed_data
              ∧ MessageEntry.signature (message_entry r.1) = Some signature
              ∧ MessageEntry.ledger_entry_id (message_entry r.1) = Some id
          | inl e => derailed (pre ++ tr) r.1 e
          end).
Proof.
  intros Hl. unfold step_notify, complete. enter.
  intros [e|status_code body]; enter.
  - split_and!; [done|done|]. apply derailed_here; [done|done|intros [=]].
  - intros now. unfold set_completed. enter.
    split_and!; try done.
    change [?o; ?t] with ([o] ++ [t]). rewrite app_assoc.
    apply on_track_neither; [|done].
    destruct (on_track_neither pre l
                (ObsPost (TRANSLATOR_URL +:+ "/telemetry")
                   (obj [("event_type", JStr "message_routed");
                         ("node_id",
                          JStr (Message.from_node
                                  (RouteRequest.message route_request)));
                         ("data",
                          obj [("message_id", JStr message_id);
                               ("to_node",
                                JStr (Message.to_node
                                        (RouteRequest.message route_request)));
                               ("message_type",
                                JStr (Message.message_type
                                        (RouteRequest.message route_request)));
                               ("hash", JStr message_hash)])])
                   (Responded status_code body)) Hl eq_refl)
      as (? & ? & ? & ? & ?).
    by split_and!.
Qed.

(** *** The pipeline and the handler *)

Lemma pipeline_keeps_track route_request st message_id message_hash :
  is_Some (registered_nodes st
             !! Message.from_node (RouteRequest.message route_request)) →
  keeps_track (pipeline route_request st message_id message_hash)
    (λ tr _ l,
       went_through (Message.data (RouteRequest.message route_request)) tr l).
Proof.
  intros Hs pre l Hl. unfold pipeline, mbind, Try_bind.
  eapply track_bind; [apply step_transform_keeps_track|done| |done].
  intros transformed_data tr1 l1 Hl1 Htd Ha1. cbn beta in Htd.
  eapply track_bind; [by apply step_sign_keeps_track|done| |].
  2:{ intros tr2 l2 e Hd Ha2. cbn [fst snd]. rewrite app_assoc.
      split; [congruence|done]. }
  intros signature tr2 l2 Hl2 Hsig Ha2. cbn beta in Hsig.
  eapply track_bind; [apply step_commit_keeps_track|done| |].
  2:{ intros tr3 l3 e Hd Ha3. cbn [fst snd]. rewrite !app_assoc.
      split; [congruence|done]. }
  intros id tr3 l3 Hl3 [Hid Hcommit] Ha3.
  eapply wp_mono; [|by eapply notify_complete_keeps_track].
  intros tr4 [l4 r]; cbn [fst snd]. rewrite !app_assoc.
  intros (Ha4 & Hb & Hend). split; [congruence|].
  destruct r as [e|[]]; [done|].
  destruct Hend as (Ht & Hstatus & Htd' & Hsig' & Hid').
  split; [done|]. split; [done|]. exists transformed_data, signature, id.
  rewrite Hb. split_and!; try done; intros Hn.
  - apply Htd. by do 3 apply not_in_completed_prefix in Hn.
  - apply Hsig. by do 2 apply not_in_completed_prefix in Hn.
  - apply Hcommit. by apply not_in_completed_prefix in Hn.
Qed.

(** Every run of [send_message] between registered nodes adds one entry to
    the message history and touches nothing else; the steps of the entry
    are the steps that calls completed; and either every call was answered
    and the entry is completed, or one call failed, nothing but the reading
    of the clock followed it, and the entry is failed with the text of that
    failure. *)
Lemma send_message_runs route_request st :
  let message := RouteRequest.message route_request in
  is_Some (registered_nodes st !! Message.from_node message) →
  is_Some (registered_nodes st !! Message.to_node message) →
  wp (send_message route_request st) (λ tr res,
    ∃ entry,
      res.1 = {| registered_nodes := registered_nodes st;
                 message_queue := message_queue st ++ [entry];
                 routing_table := routing_table st |}
      ∧ Step.step <$> MessageEntry.steps entry = completed_steps tr
      ∧ Forall (λ s, Step.status s = "completed") (MessageEntry.steps entry)
      ∧ ((Forall answered tr
          ∧ MessageEntry.status entry = "completed"
          ∧ MessageEntry.error entry = None
          ∧ MessageEntry.failed_at entry = None
          ∧ ∃ transformed_data signature id,
              MessageEntry.transformed_data entry = Some transformed_data
              ∧ MessageEntry.signature entry = Some signature
              ∧ MessageEntry.ledger_entry_id entry = Some id
              ∧ ("transform" ∉ completed_steps tr →
                 transformed_data = JObj (Message.data message))
              ∧ ("sign" ∉ completed_steps tr → signature = JNull)
              ∧ ("commit_ledger" ∉ completed_steps tr → id = JNull)
              ∧ res.2 = summary entry id)
         ∨ (∃ tr0 url json outcome e t,
              tr = tr0 ++ [ObsPost url json outcome; ObsTime t]
              ∧ Forall answered tr0
              ∧ verdict (ObsPost url json outcome) = Failed e
              ∧ MessageEntry.status entry = "failed"
              ∧ MessageEntry.error entry = Some e
              ∧ MessageEntry.failed_at entry = Some t
              ∧ (url = LEDGER_URL +:+ "/ledger/append" →
                 res.2 = summary entry JNull)))).
Proof.
  intros message Hs Hr.
  pose proof Hs as [sender Hs']. pose proof Hr as [receiver Hr'].
  unfold send_message. fold message. rewrite Hs', Hr'.
  rewrite !bool_decide_eq_false_2 by done.
  unfold mbind, prog_bind, call. cbn [wp bind].
  intros message_id created_at. apply wp_bind.
  set (message_hash := sha256_hexdigest _).
  set (l0 := {| message_entry := _; ledger_entry_id := None |}).
  assert (on_track [ObsUuid4 message_id; ObsTime created_at] l0) as Hl0.
  { split_and!; try done. by repeat constructor. }
  eapply wp_mono;
    [|apply (pipeline_keeps_track route_request st message_id message_hash
               Hs _ l0 Hl0)].
  intros tr [l r]. cbn [fst snd observe app]. intros [Ha Hend].
  assert (MessageEntry.id (message_entry l) = message_id
          ∧ MessageEntry.hash (message_entry l) = message_hash) as [Hid Hhash].
  { by injection Ha. }
  destruct r as [e|[]].
  - (* a call failed *)
    cbn [wp]. intros t.
    destruct Hend as (tr0 & url & json & outcome & Htr & Ht0 & Hv & Hb).
    destruct Ht0 as (Hsteps & Hdone & Hans & _).
    exists (fail (message_entry l) e t). split_and!; [done| |done|].
    + cbn [fail MessageEntry.steps observe]. rewrite Hsteps.
      rewrite !app_comm_cons, Htr, !completed_steps_app.
      rewrite (completed_steps_failed _ e Hv).
      by rewrite (completed_steps_neither (ObsTime t)), !app_nil_r.
    + right. exists tr0, url, json, outcome, e, t.
      split_and!; try done.
      * cbn [observe]. by rewrite !app_comm_cons, Htr, <- app_assoc.
      * intros Hurl. unfold enqueue. cbn [snd]. rewrite (Hb Hurl).
        unfold summary. cbn [fail MessageEntry.id MessageEntry.hash
          MessageEntry.status MessageEntry.steps]. by rewrite Hid, Hhash.
  - (* every call was answered *)
    cbn [wp]. rewrite app_nil_r.
    destruct Hend as ((Hsteps & Hdone & Hans & Herr & Hfail) & Hstatus & Hrest).
    destruct Hrest as (transformed_data & signature & id & Htd & Hsig & Hid'
                       & Hbound & Hntd & Hnsig & Hnid).
    exists (message_entry l). split_and!; [done|done|done|].
    left. split_and!; try done.
    exists transformed_data, signature, id. split_and!; try done.
    unfold enqueue. cbn [snd]. rewrite Hbound. unfold summary.
    by rewrite Hid, Hhash.
Qed.

Lemma failed_not_answered o e : verdict o = Failed e → ¬ answered o.
Proof. intros Ho Ha. by apply (Ha e). Qed.

(** C3 (amended). For a message between registered nodes, every run of
    [send_message] adds one entry to the message history, whose steps are
    exactly the steps whose call was answered with status 200, each
    recorded as completed: a transform or sign call answered with an error
    status, like any answer of the telemetry call, leaves no step.  When
    every call of the run is answered (no call raises, and an answer with
    status 200 holds the field that the gateway reads from it), the entry is
    completed, with no error recorded; without a completed transform step it
    holds the untransformed data, and without a completed sign step it holds
    no signature.  When a call itself fails, the entry is failed, with the
    text of that failure as its error. *)
Theorem error_responses_are_skipped {W}
    (h : Handler W) (w : W) (route_request : RouteRequest.t) (st : State) :
  let message := RouteRequest.message route_request in
  let run := exec h (send_message route_request st) w in
  is_Some (registered_nodes st !! Message.from_node message) →
  is_Some (registered_nodes st !! Message.to_node message) →
  ∃ entry,
    message_queue run.2.1 = message_queue st ++ [entry]
    ∧ Step.step <$> MessageEntry.steps entry = completed_steps run.1.1
    ∧ Forall (λ s, Step.status s = "completed") (MessageEntry.steps entry)
    ∧ (Forall answered run.1.1 →
       MessageEntry.status entry = "completed"
       ∧ MessageEntry.error entry = None
       ∧ ("transform" ∉ completed_steps run.1.1 →
          MessageEntry.transformed_data entry
          = Some (JObj (Message.data message)))
       ∧ ("sign" ∉ completed_steps run.1.1 →
          MessageEntry.signature entry = Some JNull)
       ∧ ∃ id,
           run.2.2 = Ok {| Summary.message_id := MessageEntry.id entry;
                           Summary.status := "completed";
                           Summary.hash := MessageEntry.hash entry;
                           Summary.steps := MessageEntry.steps entry;
                           Summary.ledger_entry_id := id |})
    ∧ (∀ o e, o ∈ run.1.1 → verdict o = Failed e →
       MessageEntry.status entry = "failed"
       ∧ MessageEntry.error entry = Some e).
Proof.
  intros message run Hs Hr.
  pose proof (wp_exec h _ _ w (send_message_runs route_request st Hs Hr))
    as (entry & Hst & Hsteps & Hdone & Hcase).
  fold run in Hst, Hsteps, Hcase. fold message in Hcase.
  exists entry. rewrite Hst.
  split_and!; [done|done|done| |].
  - intros Hall.
    destruct Hcase as [(_ & Hstatus & Herr & _ & Hrest)
                      |(tr0 & url & json & outcome & e & t & Htr & _ & Hv & _)].
    + destruct Hrest
        as (td & sig & id & Htd & Hsig & _ & Hntd & Hnsig & _ & Hres).
      split_and!; try done.
      * intros Hn. by rewrite Htd, (Hntd Hn).
      * intros Hn. by rewrite Hsig, (Hnsig Hn).
      * exists id. rewrite Hres. unfold summary. by rewrite Hstatus.
    + rewrite Htr in Hall. apply Forall_app in Hall as [_ Hall].
      apply Forall_cons in Hall as [Ha _].
      by destruct (failed_not_answered _ _ Hv).
  - intros o e Hin Ho.
    destruct Hcase as [(Hall & _)
                      |(tr0 & url & json & outcome & e' & t & Htr & Hall & Hv
                        & Hstatus & Herr & _)].
    + apply (proj1 (Forall_forall _ _) Hall) in Hin.
      by destruct (failed_not_answered _ _ Ho).
    + rewrite Htr in Hin. apply elem_of_app in Hin as [Hin|Hin].
      { apply (proj1 (Forall_forall _ _) Hall) in Hin.
        by destruct (failed_not_answered _ _ Ho). }
      apply elem_of_cons in Hin as [->|Hin].
      * split; [done|]. congruence.
      * apply list_elem_of_singleton in Hin as ->. done.
Qed.

(** C4 (amended). For a message between registered nodes, take any run of
    [send_message] in which the call that appends to the ledger itself
    fails: it raises, as it does when the ledger is unreachable or the call
    times out.  Then the entry added to the message history is failed, with
    the text of that exception as its error and the clock reading that ends
    the run as its failure time; the steps recorded before, those whose
    call completed, are all in its steps; and the caller is told status
    failed, with no ledger entry. *)
Theorem append_failure_fails_entry {W}
    (h : Handler W) (w : W) (route_request : RouteRequest.t) (st : State)
    (json : Json) (e : string) :
  let message := RouteRequest.message route_request in
  let run := exec h (send_message route_request st) w in
  is_Some (registered_nodes st !! Message.from_node message) →
  is_Some (registered_nodes st !! Message.to_node message) →
  RouteRequest.commit_to_ledger route_request = true →
  ObsPost (LEDGER_URL +:+ "/ledger/append") json (Raised e) ∈ run.1.1 →
  ∃ entry t,
    message_queue run.2.1 = message_queue st ++ [entry]
    ∧ MessageEntry.status entry = "failed"
    ∧ MessageEntry.error entry = Some e
    ∧ MessageEntry.failed_at entry = Some t
    ∧ last run.1.1 = Some (ObsTime t)
    ∧ Step.step <$> MessageEntry.steps entry = completed_steps run.1.1
    ∧ Forall (λ s, Step.status s = "completed") (MessageEntry.steps entry)
    ∧ run.2.2 = Ok {| Summary.message_id := MessageEntry.id entry;
                      Summary.status := "failed";
                      Summary.hash := MessageEntry.hash entry;
                      Summary.steps := MessageEntry.steps entry;
                      Summary.ledger_entry_id := JNull |}.
Proof.
  intros message run Hs Hr _ Hin.
  assert (verdict (ObsPost (LEDGER_URL +:+ "/ledger/append") json (Raised e))
          = Failed e) as Hraised by done.
  pose proof (wp_exec h _ _ w (send_message_runs route_request st Hs Hr))
    as (entry & Hst & Hsteps & Hdone & Hcase).
  fold run in Hst, Hsteps, Hcase.
  destruct Hcase as [(Hall & _)
                    |(tr0 & url & json' & outcome & e' & t & Htr & Hall & Hv
                      & Hstatus & Herr & Hfail & Hres)].
  - apply (proj1 (Forall_forall _ _) Hall) in Hin.
    by destruct (failed_not_answered _ _ Hraised).
  - rewrite Htr in Hin. apply elem_of_app in Hin as [Hin|Hin].
    { apply (proj1 (Forall_forall _ _) Hall) in Hin.
      by destruct (failed_not_answered _ _ Hraised). }
    apply elem_of_cons in Hin as [Hin|Hin]; [|by apply list_elem_of_singleton in Hin].
    injection Hin as <- <- <-.
    assert (e' = e) as -> by congruence.
    exists entry, t. rewrite Hst, Htr. split_and!; try done.
    + by rewrite last_app.
    + by rewrite <- Htr.
    + rewrite Hres by done. unfold summary. by rewrite Hstatus.
Qed.

(** *** Where the private key goes *)










End GatewayProperties.

(** ** The properties at work

    The stand-in satisfies what the ledger relies on from the libraries, and
    each property above that has a premise is applied to a run of the three
    services; where the specification says more than the code does, a run
    shows the difference. *)

Section Instances.
Import Standin Deployment.

Lemma unhex_hex_byte b s :
  unhex (hex_byte b +:+ s) = r ← unhex s; Some (b :: r).
Proof. destruct b; reflexivity. Qed.

Lemma unhex_hex b : unhex (hex b) = Some b.
Proof.
  induction b as [|x b IH]; [done|].
  cbn [hex foldr]. rewrite unhex_hex_byte. fold (hex b). by rewrite IH.
Qed.

Lemma hex_nonempty b : b ≠ [] → hex b ≠ "".
Proof. destruct b as [|x b]; [done|]. intros _. by destruct x. Qed.

Lemma standin_laws : @LibraryLaws base64 ed25519.
Proof.
  split.
  - apply unhex_hex.
  - apply hex_nonempty.
  - done.
  - done.
  - done.
  - done.
  - intros sk data. cbn. by apply bool_decide_eq_true.
Qed.

(** *** Ledger *)

(** A node that supplied its own public key is re-registered after A; node
    B is never registered: an append in B's name is stored unverified. *)
Lemma append_unknown_node_succeeds_unverified_witness :
  let calls := [register_call 0 "A" None;
                register_call 1 "A" (Some (hex (replicate 32 Byte.x07)))] in
  let entry := {| Ledger.LedgerEntry.data := "hello";
                  Ledger.LedgerEntry.node_id := "B";
                  Ledger.LedgerEntry.signature := Some "07" |} in
  Forall (λ call, ¬ registers "B" call) calls
  ∧ ∃ stored,
      (Ledger.append_to_ledger (env_at 2) entry (Ledger.run calls Ledger.initial)).2
      = Ok {| Ledger.Appended.entry_id := Ledger.Stored.id stored;
              Ledger.Appended.block_height := Ledger.Stored.block_height stored;
              Ledger.Appended.verified := false;
              Ledger.Appended.data_hash := Ledger.Stored.data_hash stored |}
      ∧ Ledger.Stored.verified stored = false
      ∧ Ledger.Stored.data stored = "hello"
      ∧ Ledger.Stored.node_id stored = "B"
      ∧ Ledger.Stored.signature stored = Some "07"
      ∧ Ledger.Stored.id stored = "uuid-2"
      ∧ Ledger.Stored.block_height stored = 0.
Proof.
  intros calls entry.
  assert (Forall (λ call, ¬ registers "B" call) calls) as Hnever.
  { repeat constructor; intros [=]. }
  split; [exact Hnever|].
  destruct (append_unknown_node_succeeds_unverified calls (env_at 2) entry Hnever)
    as (stored & Happend & Hverified & Hnode & Hsig & Hid & Hdata & _ & _
        & Hheight & _).
  exists stored. rewrite Happend.
  split; [reflexivity|]. split; [exact Hverified|]. split; [exact Hdata|].
  split; [exact Hnode|]. split; [exact Hsig|]. split; [exact Hid|exact Hheight].
Defined.


(** C9, as stated, fails: A is registered, and registering A again with a
    public key that does not decode is refused with status 400; the ledger
    is left as it was. *)
Lemma reregistration_with_undecodable_key_fails :
  let st := Ledger.run [register_call 0 "A" None] Ledger.initial in
  is_Some (Ledger.node_keys st !! "A")
  ∧ Ledger.register_node (env_at 1)
      {| Ledger.NodeRegistration.node_id := "A";
         Ledger.NodeRegistration.public_key := Some "zz" |} st
    = (st, HTTPException 400 "Invalid public key").
Proof. split; [by vm_compute; eexists|reflexivity]. Qed.

(** A is registered; registering A again without a public key rotates its
    pair, and with a public key that decodes replaces it by that key. *)
Lemma reregistration_replaces_key_pair_witness :
  let st := Ledger.run [register_call 0 "A" None] Ledger.initial in
  let registration := {| Ledger.NodeRegistration.node_id := "A";
                         Ledger.NodeRegistration.public_key := None |} in
  let key_info :=
    {| Ledger.KeyInfo.public_key := hex (replicate 32 Byte.x01);
       Ledger.KeyInfo.private_key := Some (hex (replicate 32 Byte.x01));
       Ledger.KeyInfo.registered_at := 1 |} in
  is_Some (Ledger.node_keys st !! "A")
  ∧ (Ledger.register_node (env_at 1) registration st).2
    = Ok {| Ledger.Registered.node_id := "A";
            Ledger.Registered.public_key := Ledger.KeyInfo.public_key key_info;
            Ledger.Registered.private_key := Ledger.KeyInfo.private_key key_info;
            Ledger.Registered.status := "registered" |}
  ∧ Ledger.node_keys (Ledger.register_node (env_at 1) registration st).1 !! "A"
    = Some key_info.
Proof.
  intros st registration key_info.
  assert (is_Some (Ledger.node_keys st !! "A")) as Hreg
    by (by vm_compute; eexists).
  split; [exact Hreg|].
  destruct (reregistration_replaces_key_pair (env_at 1) registration st Hreg)
    as [_ Hreplaced].
  destruct (Hreplaced key_info) as (Hcall & Hstored & _).
  { left. split; reflexivity. }
  rewrite Hcall. split; [reflexivity|exact Hstored].
Defined.

(** *** Translator *)



(** *** Gateway *)

(** A and B are registered, C is not: a message from A to C is refused. *)
Lemma unregistered_node_is_rejected_witness :
  Gateway.registered_nodes two_nodes.2 !! "C" = None
  ∧ Gateway.exec (services healthy)
      (Gateway.send_message (hello "A" "C" true) two_nodes.2) two_nodes.1
    = ([], two_nodes.1,
       (two_nodes.2, HTTPException 404 "To node not registered")).
Proof.
  assert (Gateway.registered_nodes two_nodes.2 !! "C" = None) as Hc
    by (by vm_compute).
  split; [exact Hc|].
  destruct (unregistered_node_is_rejected (hello "A" "C" true) two_nodes.2
              (or_intror Hc)) as (detail & Hprog & Hrun).
  rewrite Hrun. clear Hrun.
  assert (detail = "To node not registered") as ->; [|reflexivity].
  vm_compute in Hprog. by injection Hprog as <-.
Defined.

(** C3, as stated, fails: when the call to the transform route, to the sign
    route or to the telemetry route itself fails, the entry is failed. *)
Lemma call_failure_fails_entry :
  let status faults route_request :=
    Gateway.MessageEntry.status
      <$> Gateway.message_queue (submit faults route_request).2.1 in
  status (unreachable (Gateway.TRANSLATOR_URL +:+ "/transform"))
         (translated "A" "B") = ["failed"]
  ∧ status (unreachable (Gateway.LEDGER_URL +:+ "/sign"))
           (hello "A" "B" true) = ["failed"]
  ∧ status (unreachable (Gateway.TRANSLATOR_URL +:+ "/telemetry"))
           (hello "A" "B" true) = ["failed"].
Proof. by vm_compute. Qed.

(** The sign route answers 503 and no mapping is registered for the
    transform, which answers 404: both steps are skipped, the message is
    committed unsigned and untransformed, and the entry is completed. *)
Lemma error_responses_are_skipped_witness :
  let faults := failing (Gateway.LEDGER_URL +:+ "/sign") 503 in
  let run := submit faults (translated "A" "B") in
  Forall answered run.1.1
  ∧ completed_steps run.1.1 = ["commit_ledger"]
  ∧ ∃ entry,
      Gateway.message_queue run.2.1 = [entry]
      ∧ Gateway.MessageEntry.status entry = "completed"
      ∧ Gateway.MessageEntry.transformed_data entry
        = Some (JObj {["text" := JStr "hello"]})
      ∧ Gateway.MessageEntry.signature entry = Some JNull.
Proof.
  intros faults run.
  assert (Forall answered run.1.1) as Hall.
  { vm_compute. repeat constructor; intros e [=]. }
  assert (completed_steps run.1.1 = ["commit_ledger"]) as Hsteps
    by (by vm_compute).
  split; [exact Hall|]. split; [exact Hsteps|].
  destruct (error_responses_are_skipped (services faults) two_nodes.1
              (translated "A" "B") two_nodes.2)
    as (entry & Hq & _ & _ & Hanswered & _).
  - vm_compute. eexists. reflexivity.
  - vm_compute. eexists. reflexivity.
  - destruct (Hanswered Hall) as (Hstatus & _ & Htd & Hsig & _).
    exists entry. fold (submit faults (translated "A" "B")) in Hq, Htd, Hsig.
    fold run in Hq, Htd, Hsig. rewrite Hsteps in Htd, Hsig.
    split_and!; [exact Hq|exact Hstatus| |].
    + apply Htd. by intros [=]%list_elem_of_singleton.
    + apply Hsig. by intros [=]%list_elem_of_singleton.
Defined.

(** C4, as stated, fails: the ledger answers the append with status 500,
    the entry is completed and the caller is told so, with no ledger entry;
    nothing was appended to the ledger. *)
Lemma append_error_status_is_absorbed :
  let run := submit (failing (Gateway.LEDGER_URL +:+ "/ledger/append") 500)
                    (hello "A" "B" true) in
  Gateway.MessageEntry.status <$> Gateway.message_queue run.2.1 = ["completed"]
  ∧ Gateway.MessageEntry.error <$> Gateway.message_queue run.2.1 = [None]
  ∧ (match run.2.2 with
     | Ok summary =>
         Some (Gateway.Summary.status summary,
               Gateway.Summary.ledger_entry_id summary)
     | HTTPException _ _ => None
     end) = Some ("completed", JNull)
  ∧ Ledger.ledger_entries (ledger run.1.2) = [].
Proof. by vm_compute. Qed.

(** The ledger is unreachable for the append: the entry is failed, and it
    keeps the sign step that was recorded before. *)
Lemma append_failure_fails_entry_witness :
  let url := Gateway.LEDGER_URL +:+ "/ledger/append" in
  let run := submit (unreachable url) (hello "A" "B" true) in
  Gateway.ObsPost url (posted url run.1.1)
    (Gateway.Raised "All connection attempts failed") ∈ run.1.1
  ∧ ∃ entry,
      Gateway.message_queue run.2.1 = [entry]
      ∧ Gateway.MessageEntry.status entry = "failed"
      ∧ Gateway.MessageEntry.error entry = Some "All connection attempts failed"
      ∧ Gateway.Step.step <$> Gateway.MessageEntry.steps entry = ["sign"].
Proof.
  intros url run.
  assert (Gateway.ObsPost url (posted url run.1.1)
            (Gateway.Raised "All connection attempts failed") ∈ run.1.1) as Hin.
  { apply list_elem_of_lookup. exists 4%nat. by vm_compute. }
  split; [exact Hin|].
  destruct (append_failure_fails_entry (services (unreachable url)) two_nodes.1
              (hello "A" "B" true) two_nodes.2 (posted url run.1.1)
              "All connection attempts failed")
    as (entry & t & Hq & Hstatus & Herror & _ & _ & Hsteps & _).
  - vm_compute. eexists. reflexivity.
  - vm_compute. eexists. reflexivity.
  - reflexivity.
  - exact Hin.
  - exists entry. split_and!; [exact Hq|exact Hstatus|exact Herror|].
    rewrite Hsteps. by vm_compute.
Defined.


End Instances.

(** * Further properties of the three services *)

(** ** Ledger: keys, signatures, reading the ledger back *)

Section LedgerReading.
Context `{!Base64, !Ed25519, !Hashlib}.
Import Ledger.

Lemma find_app {A} (f : A → bool) (l1 l2 : list A) :
  List.find f (l1 ++ l2)
  = match List.find f l1 with Some x => Some x | None => List.find f l2 end.
Proof. induction l1 as [|x l1 IH]; [done|]. cbn. by destruct (f x). Qed.

Lemma find_none_iff {A} (f : A → bool) (l : list A) :
  List.find f l = None ↔ ∀ x, x ∈ l → f x = false.
Proof.
  induction l as [|y l IH]; cbn.
  - split; [by intros _ x ?%elem_of_nil|done].
  - destruct (f y) eqn:E.
    + split; [done|]. intros Hall. specialize (Hall y (list_elem_of_here _ _)).
      congruence.
    + rewrite IH. split.
      * intros Hall x [->|?]%elem_of_cons; [done|by apply Hall].
      * intros Hall x ?. apply Hall. by right.
Qed.

(** X2. For a registered node and a signature that is not the empty string,
    the [verified] flag that an append stores is the [valid] flag that
    /verify answers for the same data, signature and node. *)
Theorem append_agrees_with_verify
    (entry : LedgerEntry.t) (signature : string) (st : State) :
  LedgerEntry.signature entry = Some signature →
  signature ≠ "" →
  is_Some (node_keys st !! LedgerEntry.node_id entry) →
  verify_signature (LedgerEntry.data entry) signature
                   (LedgerEntry.node_id entry) st
  = Ok {| Verified.valid := append_verified entry st;
          Verified.node_id := LedgerEntry.node_id entry |}.
Proof.
  intros Hsig Hne [key_info Hk].
  unfold verify_signature, append_verified. rewrite Hk, Hsig. cbn.
  by rewrite bool_decide_eq_false_2.
Qed.

(** X3. After a registration with a supplied public key that decodes, the
    ledger holds no private key for the node: the response has none, every
    request to sign for the node is refused with status 400, and /verify
    checks signatures under the supplied key. *)
Theorem supplied_key_node_cannot_sign
    (env : Env) (registration : NodeRegistration.t) (st : State)
    (pk : Ed25519PublicKey) :
  let node_id := NodeRegistration.node_id registration in
  let supplied := NodeRegistration.public_key registration in
  truthy supplied = true →
  supplied ≫= load_public_key = Some pk →
  let st' := (register_node env registration st).1 in
  (Registered.private_key <$>
     (match (register_node env registration st).2 with
      | Ok r => Some r
      | HTTPException _ _ => None
      end)) = Some None
  ∧ (∀ data,
       sign_data {| SignRequest.data := data; SignRequest.node_id := node_id |}
                 st'
       = HTTPException 400 "Private key not available for this node")
  ∧ (∀ data signature,
       verify_signature data signature node_id st'
       = Ok {| Verified.valid :=
                 check_signature (b64encode (public_bytes pk)) signature data;
               Verified.node_id := node_id |}).
Proof.
  intros node_id supplied Ht Hpk st'.
  unfold st', register_node. fold supplied node_id. rewrite Ht, Hpk.
  cbn [fst snd]. split_and!; [done| |].
  - intros data. unfold sign_data. cbn. by rewrite lookup_insert_eq.
  - intros data signature. unfold verify_signature. cbn.
    by rewrite lookup_insert_eq.
Qed.

(** X4. Reading a page of a ledger reached by any calls, with an offset and
    a limit that are not negative: the page is the stored entries from
    position [offset] on, at most [limit] of them, their block heights are
    [offset], [offset + 1], ..., and [total] is the number of appends. *)
Theorem ledger_page_heights
    (calls : list (Env * Request)) (limit offset : Z) :
  0 ≤ limit → 0 ≤ offset →
  let st := run calls initial in
  let page := get_ledger limit offset st in
  Page.entries page
  = take (Z.to_nat limit) (drop (Z.to_nat offset) (ledger_entries st))
  ∧ Stored.block_height <$> Page.entries page
    = Z.of_nat <$> seq (Z.to_nat offset)
                       (Z.to_nat limit `min` (appends calls - Z.to_nat offset))
  ∧ Page.total page = Z.of_nat (appends calls).
Proof.
  intros Hl Ho st page.
  pose proof (run_heights calls) as Hh. fold st in Hh.
  assert (length (ledger_entries st) = appends calls) as L.
  { apply (f_equal length) in Hh. by rewrite !length_fmap, length_seq in Hh. }
  assert (Page.entries page
          = take (Z.to_nat limit) (drop (Z.to_nat offset) (ledger_entries st)))
    as Hpage.
  { unfold page, get_ledger, py_slice, clamp. cbn [Page.entries].
    set (l := ledger_entries st). set (n := length l).
    replace (offset <? 0) with false by lia.
    replace (offset + limit <? 0) with false by lia.
    destruct (decide (Z.of_nat n ≤ offset)) as [Hge|Hlt].
    - rewrite !drop_ge by (fold n; lia). by rewrite !take_nil.
    - replace (Z.to_nat (offset `min` Z.of_nat n)) with (Z.to_nat offset) by lia.
      destruct (decide (offset + limit ≤ Z.of_nat n)).
      + f_equal. lia.
      + rewrite !take_ge; [done| |]; rewrite length_drop; fold n; lia. }
  split_and!; [done| |by cbn; rewrite L].
  rewrite Hpage, fmap_take, fmap_drop, Hh, <- fmap_drop, <- fmap_take.
  rewrite drop_seq, take_seq. by rewrite Nat.min_comm.
Qed.

(** X5. When the identifier drawn for an append is not the id of a stored
    entry, the entry was not found under it before and is found under it
    afterwards: it is the entry just appended, with the data, node and
    signature of the request. *)
Theorem appended_entry_is_found
    (env : Env) (entry : LedgerEntry.t) (st : State) :
  (∀ e, e ∈ ledger_entries st → Stored.id e ≠ uuid4 env) →
  get_ledger_entry (uuid4 env) st = HTTPException 404 "Entry not found"
  ∧ ∃ stored,
      get_ledger_entry (uuid4 env) (append_to_ledger env entry st).1 = Ok stored
      ∧ Stored.id stored = uuid4 env
      ∧ Stored.data stored = LedgerEntry.data entry
      ∧ Stored.node_id stored = LedgerEntry.node_id entry
      ∧ Stored.signature stored = LedgerEntry.signature entry
      ∧ Stored.block_height stored = Z.of_nat (length (ledger_entries st)).
Proof.
  intros Hfresh.
  assert (List.find (λ e, bool_decide (Stored.id e = uuid4 env))
                    (ledger_entries st) = None) as Hnone.
  { apply find_none_iff. intros e He. apply bool_decide_eq_false. by apply Hfresh. }
  split.
  - unfold get_ledger_entry. by rewrite Hnone.
  - exists (new_entry env entry st). split; [|done].
    rewrite append_to_ledger_eq. unfold get_ledger_entry. cbn [fst ledger_entries].
    rewrite find_app, Hnone. cbn. by rewrite bool_decide_eq_true_2.
Qed.

(** X6. An entry found under an id is found under it, unchanged, after any
    further calls to the ledger, of any route. *)
Theorem found_entry_stays_found
    (calls : list (Env * Request)) (entry_id : string) (e : Stored.t)
    (st : State) :
  get_ledger_entry entry_id st = Ok e →
  get_ledger_entry entry_id (run calls st) = Ok e.
Proof.
  intros Hget.
  induction calls as [|[env req] calls IH] using rev_ind; [done|].
  rewrite run_snoc. revert IH. unfold get_ledger_entry.
  rewrite handle_entries. destruct req; try done.
  rewrite find_app. by destruct (List.find _ (ledger_entries (run calls st))).
Qed.

(** X7. A registered node stays registered whatever calls follow, and the
    key pair stored for it is the same as long as none of these calls
    registers that node id again. *)
Theorem registered_node_persists
    (calls : list (Env * Request)) (node_id : string) (st : State) :
  is_Some (node_keys st !! node_id) →
  is_Some (node_keys (run calls st) !! node_id)
  ∧ (Forall (λ call, ¬ registers node_id call) calls →
     node_keys (run calls st) !! node_id = node_keys st !! node_id).
Proof.
  intros Hreg. split.
  - induction calls as [|[env req] calls IH] using rev_ind; [done|].
    rewrite run_snoc. destruct req; try done. cbn [handle].
    pose proof (register_node_keys_other env registration (run calls st) node_id)
      as Hother.
    unfold register_node in *.
    destruct (truthy _); [destruct (_ ≫= load_public_key)|]; cbn in *; try done;
      (destruct (decide (NodeRegistration.node_id registration = node_id))
         as [->|Hne]; [by rewrite lookup_insert_eq|by rewrite Hother]).
  - induction calls as [|[env req] calls IH] using rev_ind; [done|].
    intros [Hall Hlast]%Forall_app. rewrite run_snoc.
    rewrite handle_keys_other; [by apply IH|]. by inversion Hlast.
Qed.

(** X8. In a ledger reached by any calls, the hash stored with every entry
    is the SHA-256 digest of the data stored with it. *)
Theorem stored_hashes_match (calls : list (Env * Request)) :
  Forall (λ e, Stored.data_hash e = sha256_hexdigest (encode (Stored.data e)))
         (ledger_entries (run calls initial)).
Proof.
  induction calls as [|[env req] calls IH] using rev_ind; [constructor|].
  rewrite run_snoc, handle_entries. destruct req; try done.
  apply Forall_app. split; [done|]. by apply Forall_singleton.
Qed.

(** X9. The metrics of a ledger reached by any calls: the number of
    entries reported is the number of appends served, and the number of
    verified entries reported is between zero and that number. *)
Theorem ledger_metrics_count (calls : list (Env * Request)) (env : Env) :
  let m := get_metrics env (run calls initial) in
  Metrics.total_entries m = Z.of_nat (appends calls)
  ∧ 0 ≤ Metrics.verified_entries m ≤ Metrics.total_entries m.
Proof.
  intros m. destruct (ledger_heights_count calls) as [L _].
  unfold m, get_metrics. cbn. split_and!.
  - by rewrite L.
  - lia.
  - pose proof (length_filter (λ e, Stored.verified e = true)
                              (ledger_entries (run calls initial))). lia.
Qed.

(** X10. The list of registered nodes has one item for each node id that
    the ledger holds a key for, with the public key and the time stored for
    it, and no others. *)
Theorem registered_nodes_listing (st : State) :
  NoDup (NodeView.node_id <$> get_registered_nodes st)
  ∧ ∀ v, v ∈ get_registered_nodes st ↔
         ∃ key_info,
           node_keys st !! NodeView.node_id v = Some key_info
           ∧ NodeView.public_key v = KeyInfo.public_key key_info
           ∧ NodeView.registered_at v = KeyInfo.registered_at key_info.
Proof.
  unfold get_registered_nodes. split.
  - rewrite <- list_fmap_compose.
    assert (∀ l : list (string * KeyInfo.t),
              (NodeView.node_id ∘ (λ '(node_id, key_info),
                 {| NodeView.node_id := node_id;
                    NodeView.public_key := KeyInfo.public_key key_info;
                    NodeView.registered_at := KeyInfo.registered_at key_info |}))
              <$> l = l.*1) as ->.
    { intros l. apply list_fmap_ext. by intros _ [? ?] _. }
    apply NoDup_fst_map_to_list.
  - intros v. rewrite list_elem_of_fmap. split.
    + intros ([node_id key_info] & -> & Hin%elem_of_map_to_list). eauto.
    + intros (key_info & Hk & Hp & Ht).
      exists (NodeView.node_id v, key_info). split.
      * destruct v. cbn in *. by subst.
      * by apply elem_of_map_to_list.
Qed.

End LedgerReading.

Section LedgerSignatures.
Context `{!Base64, !Ed25519, !Hashlib, !LibraryLaws}.
Import Ledger.

(** X1. In a ledger reached by any calls, for a node whose private key the
    ledger holds and any data: /sign returns a signature, and /verify
    answers [valid = true] for that data, that signature and that node. *)
Theorem signed_data_verifies
    (calls : list (Env * Request)) (node_id data : string)
    (key_info : KeyInfo.t) :
  let st := run calls initial in
  node_keys st !! node_id = Some key_info →
  is_Some (KeyInfo.private_key key_info) →
  ∃ signed,
    sign_data {| SignRequest.data := data; SignRequest.node_id := node_id |} st
    = Ok signed
    ∧ Signed.data signed = data
    ∧ verify_signature data (Signed.signature signed) node_id st
      = Ok {| Verified.valid := true; Verified.node_id := node_id |}.
Proof.
  intros st Hk [p Hp].
  destruct (run_custody calls node_id key_info Hk p Hp) as (sk & -> & Hpub).
  eexists. split_and!.
  - unfold sign_data. cbn. fold st. rewrite Hk, Hp.
    rewrite truthy_b64encode by apply private_bytes_nonempty. cbn.
    by rewrite load_private_key_encoded.
  - done.
  - cbn [Signed.signature]. unfold verify_signature. rewrite Hk.
    unfold check_signature. rewrite Hpub, load_public_key_encoded.
    by rewrite b64decode_b64encode, verify_sign.
Qed.

End LedgerSignatures.

(** ** Translator: mappings and the telemetry log *)

Section TranslatorMore.
Context `{!JsonLib}.
Import Translator.

Lemma dict_set_fresh {V} (k : string) (v : V) (d : list (string * V)) :
  k ∉ d.*1 → dict_set k v d = d ++ [(k, v)].
Proof.
  induction d as [|[k' v'] d IH]; [done|]. cbn.
  intros [Hne Hd]%not_elem_of_cons.
  rewrite decide_False by done. by rewrite IH.
Qed.

(** X11. Registering a mapping under an identifier not in use adds it after
    the mappings already registered.  A pair of schemas that had a mapping
    keeps being served by that mapping (the first registered wins, the new
    one is never used for it), and the pair of the new mapping, if it had
    none, is served by the new mapping. *)
Theorem first_registered_mapping_wins
    (env : Env) (mapping : SchemaMapping.t) (st : State) :
  uuid4 env ∉ (schema_mappings st).*1 →
  let st' := (register_schema_mapping env mapping st).1 in
  let registered :=
    {| Mapping.id := uuid4 env;
       Mapping.source_schema := SchemaMapping.source_schema mapping;
       Mapping.target_schema := SchemaMapping.target_schema mapping;
       Mapping.mapping_rules := SchemaMapping.mapping_rules mapping;
       Mapping.created_at := time env |} in
  get_schema_mappings st' = get_schema_mappings st ++ [registered]
  ∧ (∀ source_schema target_schema m,
       find_mapping source_schema target_schema st = Some m →
       find_mapping source_schema target_schema st' = Some m)
  ∧ (find_mapping (SchemaMapping.source_schema mapping)
                  (SchemaMapping.target_schema mapping) st = None →
     find_mapping (SchemaMapping.source_schema mapping)
                  (SchemaMapping.target_schema mapping) st' = Some registered)
  ∧ (∀ source_schema target_schema,
       find_mapping source_schema target_schema st = None →
       ¬ (SchemaMapping.source_schema mapping = source_schema
          ∧ SchemaMapping.target_schema mapping = target_schema) →
       find_mapping source_schema target_schema st' = None).
Proof.
  intros Hfresh st' registered.
  assert (schema_mappings st' = schema_mappings st ++ [(uuid4 env, registered)])
    as Hst'.
  { unfold st', register_schema_mapping. cbn [fst schema_mappings].
    by apply dict_set_fresh. }
  unfold get_schema_mappings, find_mapping. rewrite Hst', fmap_app.
  cbn [fmap list_fmap snd]. split_and!.
  - done.
  - intros source_schema target_schema m Hm. by rewrite find_app, Hm.
  - intros Hnone. rewrite find_app, Hnone. cbn.
    by rewrite !bool_decide_eq_true_2.
  - intros source_schema target_schema Hnone Hne. rewrite find_app, Hnone. cbn.
    destruct (bool_decide _) eqn:E1, (bool_decide (_ = target_schema)) eqn:E2;
      try done.
    apply bool_decide_eq_true in E1, E2. by destruct Hne.
Qed.

(** X12. When the mapping found for a transform has a rule whose source is
    a list or an object, which Python cannot look up in a dictionary, the
    transform fails with status 500: nothing is transformed, no telemetry
    event is logged and the translator is left as it was. *)
Theorem unhashable_rule_fails_transform
    (env : Env) (request : TransformRequest.t) (st : State)
    (mapping : Mapping.t) (target_field : string) (source : Json) :
  find_mapping (TransformRequest.source_schema request)
               (TransformRequest.target_schema request) st = Some mapping →
  Mapping.mapping_rules mapping !! target_field = Some source →
  ¬ hashable source →
  transform_data env request st
  = (st, HTTPException 500 "Internal Server Error").
Proof.
  intros Hf Hrule Hbad. unfold transform_data. rewrite Hf.
  unfold apply_rules. rewrite copy_loop_unhashable; [done|].
  apply Exists_exists. exists (target_field, source).
  split; [by apply elem_of_map_to_list|done].
Qed.

(** X13. The telemetry log only grows: registering a mapping, a transform
    that returns normally and logging an event each add one event at the
    end of the log, a transform that fails adds none, and none of them
    touches the events logged before. *)
Theorem telemetry_log_grows (env : Env) (st : State) :
  (∀ mapping,
     ∃ event, telemetry_data (register_schema_mapping env mapping st).1
              = telemetry_data st ++ [event])
  ∧ (∀ event,
       telemetry_data (log_telemetry env event st).1
       = telemetry_data st ++
         [Logged (uuid4 env) (TelemetryEvent.event_type event)
            (TelemetryEvent.node_id event) (TelemetryEvent.data event)
            (time env)])
  ∧ (∀ request,
       match (transform_data env request st).2 with
       | Ok r =>
           telemetry_data (transform_data env request st).1
           = telemetry_data st ++
             [DataTransformed (time env) (Transformed.mapping_id r)
                (TransformRequest.source_schema request)
                (TransformRequest.target_schema request)
                (Z.of_nat (String.length
                   (dumps (JObj (TransformRequest.data request)))))]
           ∧ schema_mappings (transform_data env request st).1
             = schema_mappings st
       | HTTPException _ _ => (transform_data env request st).1 = st
       end).
Proof.
  split_and!.
  - intros mapping. by eexists.
  - done.
  - intros request. unfold transform_data.
    destruct (find_mapping _ _ st) as [mapping|]; [|reflexivity].
    destruct (apply_rules _ _); [|reflexivity]. cbn. done.
Qed.

(** X14. Reading the telemetry log with a limit: a positive limit gives the
    last [limit] events, all of them when there are no more than that; the
    limit 0 gives the whole log, not an empty answer. *)
Theorem telemetry_limit (limit : Z) (st : State) :
  0 ≤ limit →
  get_telemetry limit st
  = (if decide (limit = 0) then telemetry_data st
     else drop (length (telemetry_data st) - Z.to_nat limit) (telemetry_data st))
  ∧ (0 < limit → Z.of_nat (length (get_telemetry limit st)) ≤ limit).
Proof.
  intros Hl. unfold get_telemetry, py_last, clamp.
  set (l := telemetry_data st).
  destruct (decide (limit = 0)) as [->|Hne].
  - replace (- 0 <? 0) with false by done.
    replace (Z.to_nat ((- 0) `min` Z.of_nat (length l))) with 0%nat by lia.
    split; [done|lia].
  - replace (- limit <? 0) with true by lia.
    replace (Z.to_nat ((- limit + Z.of_nat (length l)) `max` 0))
      with (length l - Z.to_nat limit)%nat by lia.
    split; [done|]. intros _. rewrite length_drop. lia.
Qed.

Lemma dict_set_length {V} (k : string) (v : V) (d : list (string * V)) :
  (length d ≤ length (dict_set k v d) ≤ S (length d))%nat.
Proof.
  induction d as [|[k' v'] d IH]; cbn; [lia|].
  destruct (decide (k' = k)); cbn; lia.
Qed.

(** X22. The metrics of a translator reached by any calls from the empty
    state: there are no more schemas than registrations served (two
    registrations under one identifier leave one schema), every
    registration has left a telemetry event, and no call has left more than
    one. *)
Theorem translator_metrics_bounds (calls : list (Env * Request)) :
  let m := get_metrics (run calls initial) in
  let registrations :=
    Z.of_nat (length (List.filter is_schema_register calls)) in
  0 ≤ m.1 ≤ registrations
  ∧ registrations ≤ m.2 ≤ Z.of_nat (length calls).
Proof.
  cbv zeta. unfold get_metrics. cbn [fst snd].
  induction calls as [|[env req] calls IH] using rev_ind; [cbn; lia|].
  unfold run in *. rewrite foldl_app, List.filter_app, !length_app. cbn [foldl].
  set (st := foldl _ initial calls) in *.
  destruct req as [mapping|request|event]; cbn [handle List.filter
    is_schema_register snd length].
  - unfold register_schema_mapping. cbn [fst schema_mappings telemetry_data].
    rewrite length_app. cbn [length].
    pose proof (dict_set_length (uuid4 env)
      {| Mapping.id := uuid4 env;
         Mapping.source_schema := SchemaMapping.source_schema mapping;
         Mapping.target_schema := SchemaMapping.target_schema mapping;
         Mapping.mapping_rules := SchemaMapping.mapping_rules mapping;
         Mapping.created_at := time env |} (schema_mappings st)).
    lia.
  - unfold transform_data.
    destruct (find_mapping _ _ st) as [mapping|]; [|cbn; lia].
    destruct (apply_rules _ _); cbn [fst schema_mappings telemetry_data];
      [rewrite length_app|]; cbn [length]; lia.
  - unfold log_telemetry. cbn [fst schema_mappings telemetry_data].
    rewrite length_app. cbn [length]. lia.
Qed.

End TranslatorMore.

(** ** Gateway: registration, routing, the message history *)

Section GatewayMore.
Context `{!Hashlib, !JsonLib}.
Import Gateway.

Lemma register_node_cases registration st :
  wp (register_node registration st) (λ tr res,
    ∃ outcome,
      tr !! 0%nat
      = Some (ObsPost (LEDGER_URL +:+ "/nodes/register")
                (obj [("node_id", JStr (NodeRegistration.node_id registration))])
                outcome)
      ∧ urls tr = [LEDGER_URL +:+ "/nodes/register"]
      ∧ match outcome with
        | Raised e =>
            res = (st, HTTPException 503 ("Ledger service unavailable: " +:+ e))
        | Responded _ None =>
            ∃ detail, res = (st, HTTPException 503 detail)
        | Responded _ (Some (JObj d)) =>
            ∃ node,
              registered_nodes res.1
              = <[NodeRegistration.node_id registration := node]>
                  (registered_nodes st)
              ∧ message_queue res.1 = message_queue st
              ∧ routing_table res.1
                = add_routes (NodeRegistration.node_id registration)
                    (NodeRegistration.capabilities registration)
                    (routing_table st)
              ∧ Node.public_key node = default JNull (d !! "public_key")
              ∧ Node.private_key node = default JNull (d !! "private_key")
              ∧ Node.status node = "active"
              ∧ res.2 = Ok {| Registered.node_id :=
                                NodeRegistration.node_id registration;
                              Registered.status := "registered";
                              Registered.public_key := Node.public_key node;
                              Registered.private_key := Node.private_key node |}
        | Responded _ (Some _) =>
            res = (st, HTTPException 500 "Internal Server Error")
        end).
Proof.
  unfold register_node, mbind, prog_bind, call. cbn [wp bind].
  intros [e|status_code [body|]]; cbn [wp observe]; try by eexists.
  - destruct body; cbn [dict_get wp bind observe]; try by eexists.
    intros now. eexists. split; [done|]. split; [done|].
    eexists. by split_and!.
  - eexists. split; [done|]. split; [done|]. by eexists.
Qed.

(** X15. A registration with the gateway makes one call, the POST of the
    node id to the ledger's registration route.  If that call raises, or its
    answer is not JSON, the gateway answers 503 and registers nothing; if
    the answer is JSON but not an object, it fails with 500 and registers
    nothing.  If the answer is a JSON object, whatever its status code, the
    node is registered as active with the keys found in the answer, [None]
    for a key that is not there, and the message history is untouched. *)
Theorem registration_follows_ledger_answer {W}
    (h : Handler W) (w : W) (registration : NodeRegistration.t) (st : State) :
  let run := exec h (register_node registration st) w in
  ∃ outcome,
    run.1.1 !! 0%nat
    = Some (ObsPost (LEDGER_URL +:+ "/nodes/register")
              (obj [("node_id", JStr (NodeRegistration.node_id registration))])
              outcome)
    ∧ urls run.1.1 = [LEDGER_URL +:+ "/nodes/register"]
    ∧ match outcome with
      | Raised e =>
          run.2 = (st, HTTPException 503 ("Ledger service unavailable: " +:+ e))
      | Responded _ None =>
          ∃ detail, run.2 = (st, HTTPException 503 detail)
      | Responded _ (Some (JObj d)) =>
          ∃ node,
            registered_nodes run.2.1
            = <[NodeRegistration.node_id registration := node]>
                (registered_nodes st)
            ∧ message_queue run.2.1 = message_queue st
            ∧ routing_table run.2.1
              = add_routes (NodeRegistration.node_id registration)
                  (NodeRegistration.capabilities registration)
                  (routing_table st)
            ∧ Node.public_key node = default JNull (d !! "public_key")
            ∧ Node.private_key node = default JNull (d !! "private_key")
            ∧ Node.status node = "active"
            ∧ run.2.2 = Ok {| Registered.node_id :=
                                NodeRegistration.node_id registration;
                              Registered.status := "registered";
                              Registered.public_key := Node.public_key node;
                              Registered.private_key := Node.private_key node |}
      | Responded _ (Some _) =>
          run.2 = (st, HTTPException 500 "Internal Server Error")
      end.
Proof.
  intros run. apply (wp_exec h _ _ w (register_node_cases registration st)).
Qed.

Lemma add_routes_snoc node_id capabilities capability table :
  add_routes node_id (capabilities ++ [capability]) table
  = <[capability :=
        default [] (add_routes node_id capabilities table !! capability)
        ++ [node_id]]> (add_routes node_id capabilities table).
Proof. unfold add_routes. by rewrite foldl_app. Qed.

(** X16. The routing table after the loop that enters a node under its
    capabilities: a node is listed under a capability exactly when it was
    listed there before, or it is the node entered and the capability is one
    of its capabilities; what was listed before stays at the front, in
    order. *)
Theorem routes_after_registration
    (node_id : string) (capabilities : list string)
    (table : gmap string (list string)) (capability : string) :
  let table' := add_routes node_id capabilities table in
  default [] (table !! capability) `prefix_of` default [] (table' !! capability)
  ∧ ∀ n, n ∈ default [] (table' !! capability) ↔
         n ∈ default [] (table !! capability)
         ∨ (n = node_id ∧ capability ∈ capabilities).
Proof.
  cbv zeta.
  induction capabilities as [|c capabilities IH] using rev_ind.
  - split; [done|]. intros n. split; [by left|].
    by intros [?|[_ ?%elem_of_nil]].
  - destruct IH as [IHp IHm]. rewrite add_routes_snoc.
    set (t := add_routes node_id capabilities table) in *.
    destruct (decide (c = capability)) as [->|Hne].
    + rewrite lookup_insert_eq. cbn [default]. split.
      * etrans; [exact IHp|]. by apply prefix_app_r.
      * intros n. split.
        -- intros [Hin|Hn%list_elem_of_singleton]%elem_of_app.
           ++ apply (proj1 (IHm n)) in Hin as [?|[-> ?]]; [by left|].
              right. split; [done|]. apply elem_of_app. by left.
           ++ right. split; [done|]. apply elem_of_app. right.
              by apply list_elem_of_singleton.
        -- intros [Hin|[-> Hc]]; apply elem_of_app.
           ++ left. apply IHm. by left.
           ++ apply elem_of_app in Hc as [Hc|_].
              ** left. apply IHm. by right.
              ** right. by apply list_elem_of_singleton.
    + rewrite lookup_insert_ne by done. split; [done|].
      intros n. split.
      * intros Hin. apply (proj1 (IHm n)) in Hin as [?|[-> ?]]; [by left|].
        right. split; [done|]. apply elem_of_app. by left.
      * intros [Hin|[-> Hc]]; apply IHm; [by left|].
        apply elem_of_app in Hc as [Hc|Hc%list_elem_of_singleton]; [by right|].
        by destruct Hne.
Qed.

(** What a run of [send_message] between registered nodes adds to the
    history, and what it tells its caller about it. *)
Lemma send_message_entry route_request st :
  let message := RouteRequest.message route_request in
  is_Some (registered_nodes st !! Message.from_node message) →
  is_Some (registered_nodes st !! Message.to_node message) →
  wp (send_message route_request st) (λ tr res,
    ∃ entry,
      message_queue res.1 = message_queue st ++ [entry]
      ∧ terminal entry
      ∧ ∀ s, res.2 = Ok s →
             Summary.message_id s = MessageEntry.id entry
             ∧ Summary.status s = MessageEntry.status entry
             ∧ Summary.hash s = MessageEntry.hash entry
             ∧ Summary.steps s = MessageEntry.steps entry).
Proof.
  intros message Hs Hr.
  pose proof Hs as [sender Hs']. pose proof Hr as [receiver Hr'].
  unfold send_message. fold message. rewrite Hs', Hr'.
  rewrite !bool_decide_eq_false_2 by done.
  unfold mbind, prog_bind, call. cbn [wp bind].
  intros message_id created_at. apply wp_bind.
  set (message_hash := sha256_hexdigest _).
  set (l0 := {| message_entry := _; ledger_entry_id := None |}).
  assert (on_track [ObsUuid4 message_id; ObsTime created_at] l0) as Hl0.
  { split_and!; try done. by repeat constructor. }
  eapply wp_mono;
    [|apply (pipeline_keeps_track route_request st message_id message_hash
               Hs _ l0 Hl0)].
  intros tr [l r]. cbn [fst snd]. intros [Ha Hend].
  assert (MessageEntry.id (message_entry l) = message_id
          ∧ MessageEntry.hash (message_entry l) = message_hash) as [Hid Hhash].
  { by injection Ha. }
  destruct r as [e|[]]; cbn [wp].
  - intros t. exists (fail (message_entry l) e t).
    split_and!; [done|by right|].
    unfold enqueue. cbn [snd]. intros s.
    destruct (ledger_entry_id l); [|done]. intros [= <-]. by cbn.
  - destruct Hend as (_ & Hstatus & _).
    exists (message_entry l). split_and!; [done|by left|].
    unfold enqueue. cbn [snd]. intros s.
    destruct (ledger_entry_id l); [|done]. intros [= <-]. by cbn.
Qed.

Lemma send_message_history route_request st :
  wp (send_message route_request st) (λ tr res,
    ∃ new, message_queue res.1 = message_queue st ++ new
           ∧ Forall terminal new ∧ (length new ≤ 1)%nat).
Proof.
  destruct (registered_nodes st
              !! Message.from_node (RouteRequest.message route_request))
    as [sender|] eqn:Hs;
  [destruct (registered_nodes st
               !! Message.to_node (RouteRequest.message route_request))
     as [receiver|] eqn:Hr|].
  - eapply wp_mono; [|apply send_message_entry; by eexists].
    intros tr res (entry & Hq & Ht & _). exists [entry].
    split_and!; [done|by apply Forall_singleton|done].
  - destruct (send_message_unregistered route_request st (or_intror Hr))
      as (detail & ->).
    exists []. cbn. rewrite app_nil_r. split_and!; [done|constructor|lia].
  - destruct (send_message_unregistered route_request st (or_introl Hs))
      as (detail & ->).
    exists []. cbn. rewrite app_nil_r. split_and!; [done|constructor|lia].
Qed.

Lemma count_terminal messages :
  Forall terminal messages →
  count_status "completed" messages + count_status "failed" messages
  = Z.of_nat (length messages).
Proof.
  unfold count_status. induction 1 as [|m messages Hm _ IH]; [done|].
  cbn [List.filter]. destruct Hm as [Hm|Hm]; rewrite Hm.
  - rewrite bool_decide_eq_true_2, bool_decide_eq_false_2 by done.
    cbn [length]. lia.
  - rewrite bool_decide_eq_false_2, bool_decide_eq_true_2 by done.
    cbn [length]. lia.
Qed.

(** X17. A submission adds at most one entry to the message history, and
    the entry it adds is completed or failed, never left processing.  So
    when the entries of the history are completed or failed before a
    submission, they are afterwards, and in the metrics the successful and
    the failed messages add up to the total. *)
Theorem history_entries_are_terminal {W}
    (h : Handler W) (w : W) (route_request : RouteRequest.t) (st : State)
    (now : Time) :
  Forall terminal (message_queue st) →
  let st' := (exec h (send_message route_request st) w).2.1 in
  let m := get_metrics now st' in
  (∃ new, message_queue st' = message_queue st ++ new ∧ (length new ≤ 1)%nat)
  ∧ Forall terminal (message_queue st')
  ∧ Metrics.successful_messages m + Metrics.failed_messages m
    = Metrics.total_messages m.
Proof.
  intros Hst st' m.
  pose proof (wp_exec h _ _ w (send_message_history route_request st))
    as (new & Hq & Hnew & Hlen).
  fold st' in Hq.
  assert (Forall terminal (message_queue st')) as Hst'.
  { rewrite Hq. by apply Forall_app. }
  split_and!; [by exists new|done|].
  unfold m, get_metrics. cbn. by apply count_terminal.
Qed.

(** X18. When a submission returns a summary and the identifier drawn for
    the message was not in use in the history, the message is found under
    the summary's message id afterwards, with the status, the hash and the
    steps that the summary reports. *)
Theorem submitted_message_is_found {W}
    (h : Handler W) (w : W) (route_request : RouteRequest.t) (st : State)
    (s : Summary.t) :
  let run := exec h (send_message route_request st) w in
  run.2.2 = Ok s →
  (∀ m, m ∈ message_queue st → MessageEntry.id m ≠ Summary.message_id s) →
  ∃ entry,
    get_message (Summary.message_id s) run.2.1 = Ok entry
    ∧ MessageEntry.status entry = Summary.status s
    ∧ MessageEntry.hash entry = Summary.hash s
    ∧ MessageEntry.steps entry = Summary.steps s
    ∧ terminal entry.
Proof.
  intros run Hres Hfresh.
  assert (is_Some (registered_nodes st
                     !! Message.from_node (RouteRequest.message route_request))
          ∧ is_Some (registered_nodes st
                       !! Message.to_node (RouteRequest.message route_request)))
    as [Hs Hr].
  { destruct (registered_nodes st !! Message.from_node _) eqn:Ef;
      [destruct (registered_nodes st !! Message.to_node _) eqn:Et|].
    - split; by eexists.
    - destruct (send_message_unregistered route_request st (or_intror Et))
        as (detail & Hprog).
      unfold run in Hres. by rewrite Hprog in Hres.
    - destruct (send_message_unregistered route_request st (or_introl Ef))
        as (detail & Hprog).
      unfold run in Hres. by rewrite Hprog in Hres. }
  pose proof (wp_exec h _ _ w (send_message_entry route_request st Hs Hr))
    as (entry & Hq & Hterminal & Hsummary).
  fold run in Hq, Hsummary.
  destruct (Hsummary s Hres) as (Hid & Hstatus & Hhash & Hsteps).
  exists entry. split_and!; try done.
  unfold get_message. rewrite Hq, find_app.
  assert (List.find (λ m, bool_decide (MessageEntry.id m = Summary.message_id s))
                    (message_queue st) = None) as ->.
  { apply find_none_iff. intros m Hm. apply bool_decide_eq_false.
    by apply Hfresh. }
  cbn. by rewrite bool_decide_eq_true_2.
Qed.

Lemma filter_all {A} (f : A → bool) (l : list A) :
  Forall (λ x, f x = true) (List.filter f l).
Proof.
  induction l as [|x l IH]; cbn; [constructor|].
  destruct (f x) eqn:E; [by constructor|done].
Qed.

(** X19. The message history of a node: every message returned has the
    node as its sender or its receiver, and the answer is the end of the
    list of such messages in the history: its last [limit] items for a
    positive limit, the whole list for the limit 0. *)
Theorem messages_of_node (limit : Z) (node_id : string) (st : State) :
  node_id ≠ "" →
  0 ≤ limit →
  let answer := get_messages limit (Some node_id) st in
  let all := involving node_id (message_queue st) in
  Forall (λ m, MessageEntry.from_node m = node_id
               ∨ MessageEntry.to_node m = node_id) answer
  ∧ answer `suffix_of` all
  ∧ answer
    = (if decide (limit = 0) then all
       else drop (length all - Z.to_nat limit) all)
  ∧ (0 < limit → Z.of_nat (length answer) ≤ limit).
Proof.
  intros Hne Hl answer all.
  assert (answer = py_last all limit) as Ha.
  { unfold answer, get_messages. cbn [truthy].
    by rewrite bool_decide_eq_false_2. }
  assert (answer `suffix_of` all) as Hsuffix.
  { rewrite Ha. apply suffix_drop. }
  split_and!; [|done| |].
  - assert (Forall (λ m, MessageEntry.from_node m = node_id
                         ∨ MessageEntry.to_node m = node_id) all) as Hall.
    { eapply Forall_impl; [apply filter_all|]. cbn.
      intros m [?%bool_decide_eq_true|?%bool_decide_eq_true]%orb_true_iff; eauto. }
    destruct Hsuffix as [pre ->]. by apply Forall_app in Hall as [_ ?].
  - rewrite Ha. unfold py_last, clamp.
    destruct (decide (limit = 0)) as [->|Hn].
    + replace (- 0 <? 0) with false by done.
      by replace (Z.to_nat ((- 0) `min` Z.of_nat (length all))) with 0%nat by lia.
    + replace (- limit <? 0) with true by lia. f_equal. lia.
  - intros Hpos. rewrite Ha. unfold py_last, clamp.
    replace (- limit <? 0) with true by lia. rewrite length_drop. lia.
Qed.

Lemma urls_app tr1 tr2 : urls (tr1 ++ tr2) = urls tr1 ++ urls tr2.
Proof. apply omap_app. Qed.

Lemma calls_within_bind {A B} (m : Try A) (f : A → Try B) allowed1 allowed2 :
  calls_within m allowed1 →
  (∀ a, calls_within (f a) allowed2) →
  calls_within (try_bind m f) (allowed1 ++ allowed2).
Proof.
  intros Hm Hf l. apply wp_try_bind.
  eapply wp_mono; [|apply Hm].
  intros tr1 [l1 [e|a]] H1; cbn [fst snd].
  - by apply sublist_inserts_r.
  - eapply wp_mono; [|apply Hf]. intros tr2 r2 H2. cbn beta in H2.
    rewrite urls_app. by apply sublist_app.
Qed.

Ltac step_in :=
  unfold mbind, mret, Try_bind, Try_ret;
  repeat first
    [ apply wp_try_bind
    | progress cbn [wp post lift time_now raise try_ret bind_ledger_entry_id
                    fst snd app] ].

Ltac one_call :=
  step_in;
  repeat first
    [ progress step_in
    | intros [?e|?status_code ?body]
    | intros ?now
    | match goal with
      | |- context [?c =? 200] => destruct (c =? 200)
      | |- context [subscript ?b ?f] => destruct (subscript b f)
      end
    | progress unfold record_step ];
  cbn [wp];
  unfold urls; cbn [omap list_omap observe app];
  first [reflexivity | apply sublist_nil_l].

Lemma step_transform_calls route_request :
  calls_within (step_transform route_request)
    (if truthy (RouteRequest.transform_schema route_request)
        && truthy (Message.schema (RouteRequest.message route_request))
     then [TRANSLATOR_URL +:+ "/transform"] else []).
Proof.
  intros l. unfold step_transform. destruct (truthy _ && truthy _); one_call.
Qed.

Lemma step_sign_calls route_request st transformed_data :
  calls_within (step_sign route_request st transformed_data)
    (if match registered_nodes st
                 !! Message.from_node (RouteRequest.message route_request) with
        | Some sender => py_truthy (Node.private_key sender)
        | None => false
        end
     then [LEDGER_URL +:+ "/sign"] else []).
Proof.
  intros l. unfold step_sign.
  destruct (registered_nodes st !! _) as [sender|]; [|one_call].
  destruct (py_truthy _); one_call.
Qed.

Lemma step_commit_calls route_request message_id message_hash
    transformed_data signature :
  calls_within (step_commit route_request message_id message_hash
                            transformed_data signature)
    (if RouteRequest.commit_to_ledger route_request
     then [LEDGER_URL +:+ "/ledger/append"] else []).
Proof.
  intros l. unfold step_commit.
  destruct (RouteRequest.commit_to_ledger route_request); one_call.
Qed.

Lemma notify_complete_calls route_request message_id message_hash
    transformed_data signature id :
  calls_within (try_bind (step_notify route_request message_id message_hash)
                         (λ _, complete transformed_data signature id))
    [TRANSLATOR_URL +:+ "/telemetry"].
Proof. intros l. unfold step_notify, complete, set_completed. one_call. Qed.

Lemma pipeline_calls route_request st message_id message_hash :
  calls_within (pipeline route_request st message_id message_hash)
               (planned route_request st).
Proof.
  unfold pipeline, planned, mbind, Try_bind.
  apply calls_within_bind; [apply step_transform_calls|]. intros transformed_data.
  apply calls_within_bind; [apply step_sign_calls|]. intros signature.
  apply calls_within_bind; [apply step_commit_calls|]. intros id.
  apply notify_complete_calls.
Qed.

(** X20. The calls of a submission: each route of the pipeline is called at
    most once, in the order transform, sign, append, telemetry, and a step
    that does not apply makes no call: there is no transform call without
    both schemas, no sign call when the sender's record holds no private
    key, no append call when no commit is requested.  A step is never
    tried again. *)
Theorem calls_follow_the_pipeline {W}
    (h : Handler W) (w : W) (route_request : RouteRequest.t) (st : State) :
  urls (exec h (send_message route_request st) w).1.1
  `sublist_of` planned route_request st.
Proof.
  apply (wp_exec h (send_message route_request st)
           (λ tr _, urls tr `sublist_of` planned route_request st)).
  unfold send_message.
  repeat case_bool_decide; try (cbn [wp]; apply sublist_nil_l).
  unfold mbind, prog_bind, call. cbn [wp bind].
  intros message_id created_at. apply wp_bind.
  eapply wp_mono; [|apply pipeline_calls].
  intros tr [l [e|[]]] Htr; cbn [wp snd]; [intros t|];
    unfold urls in *; cbn [omap list_omap observe];
    rewrite omap_app; cbn [omap list_omap observe]; by rewrite app_nil_r.
Qed.

End GatewayMore.

(** ** Gateway: what is signed and what is committed *)

Section GatewaySignature.
Context `{!Hashlib, !JsonLib}.
Import Gateway.

Lemma no_post_nil url : no_post url [].
Proof. intros body outcome Hin. by apply elem_of_nil in Hin. Qed.

Lemma no_post_app url tr1 tr2 :
  no_post url tr1 → no_post url tr2 → no_post url (tr1 ++ tr2).
Proof.
  intros H1 H2 body outcome [Hin|Hin]%elem_of_app;
    [by apply (H1 body outcome)|by apply (H2 body outcome)].
Qed.

Lemma no_post_time url now tr : no_post url tr → no_post url (ObsTime now :: tr).
Proof.
  intros Htr body outcome [Hin|Hin]%elem_of_cons; [done|].
  by apply (Htr body outcome).
Qed.

Lemma no_post_uuid4 url id tr : no_post url tr → no_post url (ObsUuid4 id :: tr).
Proof.
  intros Htr body outcome [Hin|Hin]%elem_of_cons; [done|].
  by apply (Htr body outcome).
Qed.

Lemma no_post_post url url' json answer tr :
  url' ≠ url → no_post url tr → no_post url (ObsPost url' json answer :: tr).
Proof.
  intros Hne Htr body outcome [Hin|Hin]%elem_of_cons.
  - injection Hin as Hurl _ _. by destruct Hne.
  - by apply (Htr body outcome).
Qed.

Lemma signs_only_quiet tr route_request transformed_data :
  no_post (LEDGER_URL +:+ "/sign") tr →
  signs_only tr route_request transformed_data.
Proof. intros Htr request answer Hin. by destruct (Htr request answer). Qed.

Lemma signs_only_app tr1 tr2 route_request transformed_data :
  signs_only tr1 route_request transformed_data →
  signs_only tr2 route_request transformed_data →
  signs_only (tr1 ++ tr2) route_request transformed_data.
Proof.
  intros H1 H2 request answer [Hin|Hin]%elem_of_app;
    [by eapply H1|by eapply H2].
Qed.

Lemma signature_from_more pre tr post route_request transformed_data signature :
  signature_from tr route_request transformed_data signature →
  signature_from (pre ++ tr ++ post) route_request transformed_data signature.
Proof.
  intros [->|(body & Hin & Hsig)]; [by left|]. right. exists body.
  split; [|done]. apply elem_of_app. right. apply elem_of_app. by left.
Qed.

Ltac walk :=
  unfold mbind, mret, Try_bind, Try_ret;
  repeat first
    [ apply wp_try_bind
    | progress cbn [wp post lift time_now raise try_ret bind_ledger_entry_id
                    fst snd app]
    | match goal with
      | |- ∀ _ : HttpOutcome, _ => intros [?e|?status_code ?body]
      | |- ∀ _ : Time, _ => intros ?now
      | |- context [?c =? 200] => destruct (c =? 200) eqn:?
      | |- context [subscript ?b ?f] => destruct (subscript b f) eqn:?
      end
    | progress unfold record_step ];
  cbn [wp observe app].

Ltac quiet :=
  repeat first
    [ apply no_post_nil
    | apply no_post_time
    | apply no_post_post; [by vm_compute|] ].

Lemma step_transform_quiet route_request l :
  wp (step_transform route_request l) (λ tr _,
    no_post (LEDGER_URL +:+ "/ledger/append") tr
    ∧ no_post (LEDGER_URL +:+ "/sign") tr).
Proof.
  unfold step_transform. destruct (truthy _ && truthy _); walk; split; quiet.
Qed.

Lemma step_sign_signature route_request st transformed_data l :
  wp (step_sign route_request st transformed_data l) (λ tr r,
    no_post (LEDGER_URL +:+ "/ledger/append") tr
    ∧ signs_only tr route_request transformed_data
    ∧ match r.2 with
      | inl _ => True
      | inr signature =>
          signature_from tr route_request transformed_data signature
      end).
Proof.
  assert (∀ tr, no_post (LEDGER_URL +:+ "/sign") tr →
                ∀ answer,
                  signs_only
                    (ObsPost (LEDGER_URL +:+ "/sign")
                       (sign_request route_request transformed_data) answer
                     :: tr)
                    route_request transformed_data) as Hone.
  { intros tr Htr answer request answer' [Hin|Hin]%elem_of_cons.
    - by injection Hin as -> _.
    - by destruct (Htr request answer'). }
  unfold step_sign.
  destruct (registered_nodes st !! _) as [sender|];
    [destruct (py_truthy _)|]; walk;
    (split; [quiet|]);
    (split; [first [ apply Hone; quiet | apply signs_only_quiet; quiet ]|]);
    cbn [snd]; try done; try (by left).
  right. exists body.
  match goal with H : (_ =? 200) = true |- _ => apply Z.eqb_eq in H as -> end.
  split; [apply list_elem_of_here|done].
Qed.

Lemma step_commit_request route_request message_id message_hash
    transformed_data signature l :
  wp (step_commit route_request message_id message_hash
                  transformed_data signature l) (λ tr _,
    no_post (LEDGER_URL +:+ "/sign") tr
    ∧ ∀ body outcome,
        ObsPost (LEDGER_URL +:+ "/ledger/append") body outcome ∈ tr →
        body = append_request route_request
                 (dumps_sorted (ledger_record route_request message_id
                                  message_hash transformed_data))
                 signature).
Proof.
  unfold step_commit.
  destruct (RouteRequest.commit_to_ledger route_request); walk;
    (split; [quiet|]);
    intros b o Hin;
    repeat (apply elem_of_cons in Hin as [Hin|Hin]);
    try (by apply elem_of_nil in Hin); try done;
    by injection Hin as -> _.
Qed.

Lemma notify_complete_quiet route_request message_id message_hash
    transformed_data signature id l :
  wp (try_bind (step_notify route_request message_id message_hash)
               (λ _, complete transformed_data signature id) l)
     (λ tr _, no_post (LEDGER_URL +:+ "/ledger/append") tr
              ∧ no_post (LEDGER_URL +:+ "/sign") tr).
Proof. unfold step_notify, complete, set_completed. walk; split; quiet. Qed.

(** What a run of the pipeline sends to the sign route and to the append
    route. *)
Lemma pipeline_signature route_request st message_id message_hash l :
  wp (pipeline route_request st message_id message_hash l) (λ tr _,
    ∀ body outcome,
      ObsPost (LEDGER_URL +:+ "/ledger/append") body outcome ∈ tr →
      ∃ transformed_data signature,
        body = append_request route_request
                 (dumps_sorted (ledger_record route_request message_id
                                  message_hash transformed_data))
                 signature
        ∧ signature_from tr route_request transformed_data signature
        ∧ signs_only tr route_request transformed_data).
Proof.
  unfold pipeline, mbind, Try_bind.
  apply wp_try_bind.
  eapply wp_mono; [|apply step_transform_quiet].
  intros tr1 [l1 [e|transformed_data]] [H1 S1]; cbn [fst snd].
  { intros body outcome Hin. by destruct (H1 body outcome). }
  apply wp_try_bind.
  eapply wp_mono; [|apply step_sign_signature].
  intros tr2 [l2 [e|signature]] (H2 & S2 & Hsig); cbn [fst snd] in *.
  { intros body outcome Hin.
    by destruct (no_post_app _ _ _ H1 H2 body outcome). }
  apply wp_try_bind.
  eapply wp_mono; [|apply step_commit_request].
  intros tr3 [l3 [e|id]] [S3 H3]; cbn [fst snd].
  - intros body outcome [Hin|[Hin|Hin]%elem_of_app]%elem_of_app.
    + by destruct (H1 body outcome).
    + by destruct (H2 body outcome).
    + exists transformed_data, signature. split_and!; [by eapply H3| |].
      * by apply signature_from_more.
      * apply signs_only_app; [by apply signs_only_quiet|].
        apply signs_only_app; [done|by apply signs_only_quiet].
  - eapply wp_mono; [|apply notify_complete_quiet].
    intros tr4 r4 [H4 S4].
    intros body outcome
      [Hin|[Hin|[Hin|Hin]%elem_of_app]%elem_of_app]%elem_of_app.
    + by destruct (H1 body outcome).
    + by destruct (H2 body outcome).
    + exists transformed_data, signature. split_and!; [by eapply H3| |].
      * rewrite (app_assoc tr2). apply signature_from_more.
        destruct Hsig as [->|(b & Hb & Hs)]; [by left|]. right. exists b.
        split; [|done]. apply elem_of_app. by left.
      * apply signs_only_app; [by apply signs_only_quiet|].
        apply signs_only_app; [done|].
        apply signs_only_app; by apply signs_only_quiet.
    + by destruct (H4 body outcome).
Qed.

Context `{!JsonLaws}.

(** The text of the record of a message is not the text of the transformed
    data that it holds. *)
Lemma record_text_differs route_request message_id message_hash
    transformed_data :
  dumps_sorted transformed_data
  ≠ dumps_sorted (ledger_record route_request message_id message_hash
                    transformed_data).
Proof.
  intros Heq.
  pose proof (dumps_sorted_longer
                (list_to_map
                   [("message_id", JStr message_id);
                    ("from_node",
                     JStr (Message.from_node
                             (RouteRequest.message route_request)));
                    ("to_node",
                     JStr (Message.to_node
                             (RouteRequest.message route_request)));
                    ("message_type",
                     JStr (Message.message_type
                             (RouteRequest.message route_request)));
                    ("hash", JStr message_hash);
                    ("transformed_data", transformed_data)])
                "transformed_data" transformed_data) as Hlonger.
  unfold ledger_record, obj in Heq. rewrite <- Heq in Hlonger.
  apply Nat.lt_irrefl in Hlonger; [done|].
  cbn [list_to_map foldr uncurry fst snd].
  by rewrite !lookup_insert_ne, lookup_insert_eq by done.
Qed.

(** X21. The request that a submission sends to the append route carries,
    as data, the text of the record of the message (id, nodes, type, hash
    and transformed data), and as signature either [None] or the signature
    that the sign route answered in the same run.  Every request to the
    sign route in that run asks for a signature of the text of the
    transformed data alone, which is another text than the one committed:
    the gateway never asks for a signature of the text that it commits. *)
Theorem commit_carries_signature_of_transformed_data {W}
    (h : Handler W) (w : W) (route_request : RouteRequest.t) (st : State)
    (body : Json) (outcome : HttpOutcome) :
  let tr := (exec h (send_message route_request st) w).1.1 in
  ObsPost (LEDGER_URL +:+ "/ledger/append") body outcome ∈ tr →
  ∃ message_id transformed_data signature,
    let committed :=
      dumps_sorted
        (ledger_record route_request message_id
           (sha256_hexdigest
              (encode (dumps_sorted
                 (message_dict (RouteRequest.message route_request)))))
           transformed_data) in
    tr !! 0%nat = Some (ObsUuid4 message_id)
    ∧ body = append_request route_request committed signature
    ∧ signature_from tr route_request transformed_data signature
    ∧ (∀ request answer,
         ObsPost (LEDGER_URL +:+ "/sign") request answer ∈ tr →
         request
         = obj [("data", JStr (dumps_sorted transformed_data));
                ("node_id",
                 JStr (Message.from_node
                         (RouteRequest.message route_request)))])
    ∧ dumps_sorted transformed_data ≠ committed.
Proof.
  intros tr. unfold tr. clear tr. revert body outcome.
  set (message_hash := sha256_hexdigest _).
  apply (wp_exec h (send_message route_request st)
           (λ tr _, ∀ body outcome,
              ObsPost (LEDGER_URL +:+ "/ledger/append") body outcome ∈ tr →
              ∃ message_id transformed_data signature,
                tr !! 0%nat = Some (ObsUuid4 message_id)
                ∧ body
                  = append_request route_request
                      (dumps_sorted
                         (ledger_record route_request message_id message_hash
                            transformed_data))
                      signature
                ∧ signature_from tr route_request transformed_data signature
                ∧ signs_only tr route_request transformed_data
                ∧ dumps_sorted transformed_data
                  ≠ dumps_sorted
                      (ledger_record route_request message_id message_hash
                         transformed_data))).
  unfold send_message.
  repeat case_bool_decide;
    try (cbn [wp]; intros body outcome Hin; by apply elem_of_nil in Hin).
  unfold mbind, prog_bind, call. cbn [wp bind observe].
  intros message_id created_at. apply wp_bind.
  eapply wp_mono; [|apply pipeline_signature].
  assert (∀ tr0 post,
            (∀ body outcome,
               ObsPost (LEDGER_URL +:+ "/ledger/append") body outcome ∈ tr0 →
               ∃ transformed_data signature,
                 body = append_request route_request
                          (dumps_sorted
                             (ledger_record route_request message_id
                                message_hash transformed_data))
                          signature
                 ∧ signature_from tr0 route_request transformed_data signature
                 ∧ signs_only tr0 route_request transformed_data) →
            no_post (LEDGER_URL +:+ "/ledger/append") post →
            no_post (LEDGER_URL +:+ "/sign") post →
            ∀ body outcome,
              ObsPost (LEDGER_URL +:+ "/ledger/append") body outcome
              ∈ ObsUuid4 message_id :: ObsTime created_at :: tr0 ++ post →
              ∃ message_id0 transformed_data signature,
                (ObsUuid4 message_id :: ObsTime created_at :: tr0 ++ post)
                  !! 0%nat = Some (ObsUuid4 message_id0)
                ∧ body = append_request route_request
                           (dumps_sorted
                              (ledger_record route_request message_id0
                                 message_hash transformed_data))
                           signature
                ∧ signature_from
                    (ObsUuid4 message_id :: ObsTime created_at :: tr0 ++ post)
                    route_request transformed_data signature
                ∧ signs_only
                    (ObsUuid4 message_id :: ObsTime created_at :: tr0 ++ post)
                    route_request transformed_data
                ∧ dumps_sorted transformed_data
                  ≠ dumps_sorted
                      (ledger_record route_request message_id0 message_hash
                         transformed_data)) as Hwrap.
  { intros tr0 post Htr0 Hpost Spost body outcome Hin.
    apply elem_of_cons in Hin as [Hin|Hin]; [done|].
    apply elem_of_cons in Hin as [Hin|Hin]; [done|].
    apply elem_of_app in Hin as [Hin|Hin];
      [|by destruct (Hpost body outcome)].
    destruct (Htr0 body outcome Hin)
      as (transformed_data & signature & -> & Hs & Hso).
    exists message_id, transformed_data, signature.
    split_and!; [done|done| | |apply record_text_differs].
    - by apply (signature_from_more [ObsUuid4 message_id; ObsTime created_at]
                  tr0 post).
    - apply (signs_only_app [ObsUuid4 message_id; ObsTime created_at]
               (tr0 ++ post)).
      + apply signs_only_quiet, no_post_uuid4, no_post_time, no_post_nil.
      + apply signs_only_app; [done|by apply signs_only_quiet]. }
  intros tr0 [l [e|[]]] Htr0; cbn [wp snd observe].
  - intros t. apply (Hwrap tr0 [ObsTime t] Htr0);
      apply no_post_time, no_post_nil.
  - apply (Hwrap tr0 [] Htr0); apply no_post_nil.
Qed.

End GatewaySignature.

(** ** The further properties at work *)

Section MoreInstances.
Import Standin Deployment.

Lemma string_length_app (s1 s2 : string) :
  String.length (s1 +:+ s2) = (String.length s1 + String.length s2)%nat.
Proof.
  induction s1 as [|c s1 IH]; [done|].
  change (String c s1 +:+ s2) with (String c (s1 +:+ s2)).
  cbn [String.length]. by rewrite IH.
Qed.

Lemma render_fields_longer (m : gmap string Json) (k : string) (v : Json) :
  m !! k = Some v →
  (String.length (render v)
   ≤ String.length
       (map_fold (λ k v acc, "'" +:+ k +:+ "':" +:+ render v +:+ "," +:+ acc)
                 "" m))%nat.
Proof.
  revert k v.
  apply (map_fold_weak_ind
           (λ r (m : gmap string Json),
              ∀ k v, m !! k = Some v →
                     (String.length (render v) ≤ String.length r)%nat)).
  - intros k v. by rewrite lookup_empty.
  - intros i x m' r Hi IH k v. destruct (decide (k = i)) as [->|Hne].
    + rewrite lookup_insert_eq. intros [= ->]. rewrite !string_length_app. lia.
    + rewrite lookup_insert_ne by done. intros Hk. specialize (IH k v Hk).
      rewrite !string_length_app. lia.
Qed.

(** The stand-in for [json.dumps] writes an object as its fields between
    braces. *)
Lemma standin_json_laws : @JsonLaws jsonlib.
Proof.
  split. intros m k v Hk. pose proof (render_fields_longer m k v Hk) as Hle.
  cbn [dumps_sorted jsonlib]. change (render (JObj m)) with
    ("{" +:+ map_fold (λ k v acc, "'" +:+ k +:+ "':" +:+ render v +:+ "," +:+ acc)
                      "" m +:+ "}").
  rewrite !string_length_app. cbn [String.length]. lia.
Qed.

Lemma signed_data_verifies_witness :
  let st := Ledger.run [register_call 0 "A" None] Ledger.initial in
  let key_info :=
    {| Ledger.KeyInfo.public_key := hex (replicate 32 Byte.x00);
       Ledger.KeyInfo.private_key := Some (hex (replicate 32 Byte.x00));
       Ledger.KeyInfo.registered_at := 0 |} in
  Ledger.node_keys st !! "A" = Some key_info
  ∧ is_Some (Ledger.KeyInfo.private_key key_info)
  ∧ ∃ signed,
      Ledger.sign_data {| Ledger.SignRequest.data := "hello";
                          Ledger.SignRequest.node_id := "A" |} st
      = Ok signed
      ∧ Ledger.verify_signature "hello" (Ledger.Signed.signature signed) "A" st
        = Ok {| Ledger.Verified.valid := true;
                Ledger.Verified.node_id := "A" |}.
Proof.
  intros st key_info.
  assert (Ledger.node_keys st !! "A" = Some key_info) as Hk by (by vm_compute).
  assert (is_Some (Ledger.KeyInfo.private_key key_info)) as Hp by (by eexists).
  split; [exact Hk|]. split; [exact Hp|].
  destruct (@signed_data_verifies _ _ _ standin_laws
              [register_call 0 "A" None] "A" "hello" key_info Hk Hp)
    as (signed & Hsign & _ & Hverify).
  exists signed. split; [exact Hsign|exact Hverify].
Defined.

Lemma append_agrees_with_verify_witness :
  let st := Ledger.run [register_call 0 "A" None] Ledger.initial in
  let entry := {| Ledger.LedgerEntry.data := "hello";
                  Ledger.LedgerEntry.node_id := "A";
                  Ledger.LedgerEntry.signature := Some "00ff" |} in
  is_Some (Ledger.node_keys st !! "A")
  ∧ Ledger.verify_signature "hello" "00ff" "A" st
    = Ok {| Ledger.Verified.valid := Ledger.append_verified entry st;
            Ledger.Verified.node_id := "A" |}.
Proof.
  intros st entry.
  assert (is_Some (Ledger.node_keys st !! "A")) as Hreg.
  { vm_compute. eexists. reflexivity. }
  split; [exact Hreg|].
  apply (append_agrees_with_verify entry "00ff" st); [reflexivity|done|exact Hreg].
Defined.

Lemma supplied_key_node_cannot_sign_witness :
  let registration :=
    {| Ledger.NodeRegistration.node_id := "C";
       Ledger.NodeRegistration.public_key := Some (hex (replicate 32 Byte.x07)) |} in
  truthy (Ledger.NodeRegistration.public_key registration) = true
  ∧ Ledger.sign_data {| Ledger.SignRequest.data := "hello";
                        Ledger.SignRequest.node_id := "C" |}
      (Ledger.register_node (env_at 0) registration Ledger.initial).1
    = HTTPException 400 "Private key not available for this node".
Proof.
  intros registration.
  assert (truthy (Ledger.NodeRegistration.public_key registration) = true) as Ht
    by reflexivity.
  split; [exact Ht|].
  destruct (supplied_key_node_cannot_sign (env_at 0) registration Ledger.initial
              Byte.x07 Ht) as (_ & Hsign & _); [reflexivity|].
  apply Hsign.
Defined.

Lemma ledger_page_heights_witness :
  let page := Ledger.get_ledger 2 1 (Ledger.run busy_ledger Ledger.initial) in
  Ledger.Stored.block_height <$> Ledger.Page.entries page = [1; 2]
  ∧ Ledger.Page.total page = 3.
Proof.
  destruct (ledger_page_heights busy_ledger 2 1) as (_ & Hheights & Htotal);
    [lia|lia|].
  split; [exact Hheights|exact Htotal].
Defined.

Lemma appended_entry_is_found_witness :
  let st := Ledger.run busy_ledger Ledger.initial in
  let entry := {| Ledger.LedgerEntry.data := "four";
                  Ledger.LedgerEntry.node_id := "A";
                  Ledger.LedgerEntry.signature := None |} in
  (∀ e, e ∈ Ledger.ledger_entries st →
        Ledger.Stored.id e ≠ Ledger.uuid4 (env_at 4))
  ∧ ∃ stored,
      Ledger.get_ledger_entry (Ledger.uuid4 (env_at 4))
        (Ledger.append_to_ledger (env_at 4) entry st).1 = Ok stored
      ∧ Ledger.Stored.data stored = "four"
      ∧ Ledger.Stored.block_height stored = 3.
Proof.
  intros st entry.
  assert (∀ e, e ∈ Ledger.ledger_entries st →
               Ledger.Stored.id e ≠ Ledger.uuid4 (env_at 4)) as Hfresh.
  { apply Forall_forall. vm_compute. repeat constructor; intros [=]. }
  split; [exact Hfresh|].
  destruct (appended_entry_is_found (env_at 4) entry st Hfresh)
    as (_ & stored & Hget & _ & Hdata & _ & _ & Hheight).
  exists stored. split; [exact Hget|]. split; [exact Hdata|exact Hheight].
Defined.

Lemma found_entry_stays_found_witness :
  let st := Ledger.run [register_call 0 "A" None; append_call 1 "one"]
                       Ledger.initial in
  let later := [append_call 2 "two"; register_call 3 "B" None] in
  ∃ e,
    Ledger.get_ledger_entry "uuid-1" st = Ok e
    ∧ Ledger.get_ledger_entry "uuid-1" (Ledger.run later st) = Ok e.
Proof.
  intros st later.
  assert (∃ e, Ledger.get_ledger_entry "uuid-1" st = Ok e) as [e He].
  { vm_compute. eexists. reflexivity. }
  exists e. split; [exact He|].
  exact (found_entry_stays_found later "uuid-1" e st He).
Defined.

Lemma registered_node_persists_witness :
  let st := Ledger.run [register_call 0 "A" None] Ledger.initial in
  let later := [register_call 1 "B" None; append_call 2 "one"] in
  is_Some (Ledger.node_keys st !! "A")
  ∧ Ledger.node_keys (Ledger.run later st) !! "A" = Ledger.node_keys st !! "A".
Proof.
  intros st later.
  assert (is_Some (Ledger.node_keys st !! "A")) as Hreg.
  { vm_compute. eexists. reflexivity. }
  split; [exact Hreg|].
  destruct (registered_node_persists later "A" st Hreg) as [_ Hsame].
  apply Hsame.
  constructor; [by intros [=]|]. constructor; [by intros []|]. constructor.
Defined.

(** A second mapping for the pair of schemas of the first. *)
Lemma first_registered_mapping_wins_witness :
  let env := {| Translator.uuid4 := uuid_of 1; Translator.time := 1 |} in
  let second :=
    {| Translator.SchemaMapping.source_schema := "v1";
       Translator.SchemaMapping.target_schema := "v2";
       Translator.SchemaMapping.mapping_rules := {["other" := JStr "text"]} |} in
  let st' := (Translator.register_schema_mapping env second one_mapping).1 in
  (Translator.uuid4 env ∉ (Translator.schema_mappings one_mapping).*1)
  ∧ Translator.find_mapping "v1" "v2" st'
    = Translator.find_mapping "v1" "v2" one_mapping
  ∧ is_Some (Translator.find_mapping "v1" "v2" one_mapping).
Proof.
  intros env second st'.
  assert (Translator.uuid4 env ∉ (Translator.schema_mappings one_mapping).*1)
    as Hfresh.
  { vm_compute. by intros [=]%list_elem_of_singleton. }
  split; [exact Hfresh|].
  destruct (first_registered_mapping_wins env second one_mapping Hfresh)
    as (_ & Hkeeps & _).
  assert (∃ m, Translator.find_mapping "v1" "v2" one_mapping = Some m) as [m Hm].
  { vm_compute. eexists. reflexivity. }
  split; [|by exists m].
  rewrite Hm. exact (Hkeeps "v1" "v2" m Hm).
Defined.

(** A mapping with a list as the source of a rule. *)
Lemma unhashable_rule_fails_transform_witness :
  let env := {| Translator.uuid4 := uuid_of 1; Translator.time := 1 |} in
  let st :=
    (Translator.register_schema_mapping
       {| Translator.uuid4 := uuid_of 0; Translator.time := 0 |}
       {| Translator.SchemaMapping.source_schema := "v1";
          Translator.SchemaMapping.target_schema := "v2";
          Translator.SchemaMapping.mapping_rules :=
            {["greeting" := JArr [JStr "text"]]} |}
       Translator.initial).1 in
  let request :=
    {| Translator.TransformRequest.data := {["text" := JStr "hello"]};
       Translator.TransformRequest.source_schema := "v1";
       Translator.TransformRequest.target_schema := "v2" |} in
  is_Some (Translator.find_mapping "v1" "v2" st)
  ∧ Translator.transform_data env request st
    = (st, HTTPException 500 "Internal Server Error").
Proof.
  intros env st request.
  assert (∃ m, Translator.find_mapping "v1" "v2" st = Some m
               ∧ Translator.Mapping.mapping_rules m !! "greeting"
                 = Some (JArr [JStr "text"])) as (m & Hm & Hrule).
  { vm_compute. eexists. split; reflexivity. }
  split; [by exists m|].
  apply (unhashable_rule_fails_transform env request st m "greeting"
           (JArr [JStr "text"]) Hm Hrule).
  intros [].
Defined.

Lemma telemetry_limit_witness :
  let st := (Translator.log_telemetry
               {| Translator.uuid4 := uuid_of 1; Translator.time := 1 |}
               {| Translator.TelemetryEvent.event_type := "ping";
                  Translator.TelemetryEvent.node_id := "A";
                  Translator.TelemetryEvent.data := ∅ |} one_mapping).1 in
  length (Translator.get_telemetry 1 st) = 1%nat
  ∧ Translator.get_telemetry 0 st = Translator.telemetry_data st
  ∧ length (Translator.telemetry_data st) = 2%nat.
Proof.
  intros st.
  destruct (telemetry_limit 1 st) as [Hone _]; [lia|].
  destruct (telemetry_limit 0 st) as [Hzero _]; [lia|].
  rewrite Hone, Hzero. by vm_compute.
Defined.

Lemma history_entries_are_terminal_witness :
  let st' := (submit healthy (hello "A" "B" true)).2.1 in
  Forall terminal (Gateway.message_queue two_nodes.2)
  ∧ Forall terminal (Gateway.message_queue st')
  ∧ length (Gateway.message_queue st') = 1%nat.
Proof.
  intros st'.
  assert (Forall terminal (Gateway.message_queue two_nodes.2)) as Hst.
  { vm_compute. constructor. }
  split; [exact Hst|].
  destruct (history_entries_are_terminal (services healthy) two_nodes.1
              (hello "A" "B" true) two_nodes.2 0 Hst) as (_ & Hterminal & _).
  split; [exact Hterminal|]. by vm_compute.
Defined.

Lemma submitted_message_is_found_witness :
  let run := submit healthy (hello "A" "B" true) in
  ∃ s entry,
    run.2.2 = Ok s
    ∧ Gateway.get_message (Gateway.Summary.message_id s) run.2.1 = Ok entry
    ∧ Gateway.MessageEntry.status entry = Gateway.Summary.status s.
Proof.
  intros run.
  assert (∃ s, run.2.2 = Ok s) as [s Hs].
  { vm_compute. eexists. reflexivity. }
  destruct (submitted_message_is_found (services healthy) two_nodes.1
              (hello "A" "B" true) two_nodes.2 s Hs)
    as (entry & Hget & Hstatus & _).
  { intros m Hm. vm_compute in Hm. by apply elem_of_nil in Hm. }
  exists s, entry. split; [exact Hs|]. split; [exact Hget|exact Hstatus].
Defined.

Lemma messages_of_node_witness :
  let st := (submit healthy (hello "A" "B" true)).2.1 in
  Forall (λ m, Gateway.MessageEntry.from_node m = "A"
               ∨ Gateway.MessageEntry.to_node m = "A")
         (Gateway.get_messages 1 (Some "A") st)
  ∧ length (Gateway.get_messages 1 (Some "A") st) = 1%nat.
Proof.
  intros st.
  destruct (messages_of_node 1 "A" st) as (Hall & _); [done|lia|].
  split; [exact Hall|]. by vm_compute.
Defined.

Lemma commit_carries_signature_of_transformed_data_witness :
  let tr := (submit healthy (hello "A" "B" true)).1.1 in
  ∃ body outcome message_id transformed_data signature,
    Gateway.ObsPost (Gateway.LEDGER_URL +:+ "/ledger/append") body outcome ∈ tr
    ∧ tr !! 0%nat = Some (Gateway.ObsUuid4 message_id)
    ∧ body
      = append_request (hello "A" "B" true)
          (dumps_sorted
             (ledger_record (hello "A" "B" true) message_id
                (sha256_hexdigest
                   (encode (dumps_sorted
                      (Gateway.message_dict
                         (Gateway.RouteRequest.message (hello "A" "B" true))))))
                transformed_data))
          signature
    ∧ signature_from tr (hello "A" "B" true) transformed_data signature
    ∧ dumps_sorted transformed_data
      ≠ dumps_sorted
          (ledger_record (hello "A" "B" true) message_id
             (sha256_hexdigest
                (encode (dumps_sorted
                   (Gateway.message_dict
                      (Gateway.RouteRequest.message (hello "A" "B" true))))))
             transformed_data).
Proof.
  intros tr.
  assert (∃ body outcome,
            Gateway.ObsPost (Gateway.LEDGER_URL +:+ "/ledger/append")
                            body outcome ∈ tr) as (body & outcome & Hin).
  { vm_compute. do 2 eexists.
    repeat first [apply list_elem_of_here | apply list_elem_of_further]. }
  destruct (@commit_carries_signature_of_transformed_data _ _ standin_json_laws
              _ (services healthy) two_nodes.1 (hello "A" "B" true) two_nodes.2
              body outcome Hin)
    as (message_id & transformed_data & signature
        & Hid & Hbody & Hsig & _ & Hdiffers).
  exists body, outcome, message_id, transformed_data, signature.
  split; [exact Hin|]. split; [exact Hid|]. split; [exact Hbody|].
  split; [exact Hsig|exact Hdiffers].
Defined.

End MoreInstances.
